(** * report.py: employee records, department hierarchy and salary summaries

    A shallow embedding of [report.py] and of the parts of the Python
    runtime it relies on (exceptions, [int], [float], [str], integer true
    division, [csv.DictReader] and [csv.DictWriter]), followed by the
    properties of the loader, the two aggregators and the summary writer.

    Conventions.
    - A Python [str] is a [string] holding its UTF-8 encoding.  Every
      character the code treats specially (delimiters, quotes, line ends,
      digits, signs) is ASCII and never occurs inside a multi-byte sequence.
    - A Python [int] is a [Z]; a Python [float] is a [pyfloat], an IEEE 754
      binary64 value given by sign, integral significand and exponent.
    - A raised exception is the [Raise] branch of [result]. *)

From Stdlib Require Import ZArith List String Ascii Bool Lia DecimalString
  Permutation.
Import ListNotations.
Open Scope Z_scope.

(** ** Exceptions *)

Inductive py_error : Type :=
| KeyError (key : string)
| ValueError
| TypeError
| ZeroDivisionError
| OverflowError
| FileNotFoundError.

Inductive result (A : Type) : Type :=
| Ok (a : A)
| Raise (e : py_error).

Arguments Ok {A} a.
Arguments Raise {A} e.

Definition bind {A B : Type} (r : result A) (k : A -> result B) : result B :=
  match r with
  | Ok a => k a
  | Raise e => Raise e
  end.

Notation "x <- r ;; k" := (bind r (fun x => k))
  (at level 61, r at next level, right associativity).

(** [[f(x) for x in l]]: the elements are evaluated left to right and the
    first exception aborts the whole comprehension. *)
Fixpoint comprehension {A B : Type} (f : A -> result B) (l : list A)
  : result (list B) :=
  match l with
  | [] => Ok []
  | x :: l' => y <- f x ;; ys <- comprehension f l' ;; Ok (y :: ys)
  end.

(** ** Floats *)

Module PyFloat.

(** [Finite neg m e] is [(-1)^neg * m * 2^e] with [0 <= m]. The values built
    below are canonical: [m = 0] and [e = 0], or [2^52 <= m < 2^53] and
    [-1074 <= e <= 971], or [0 < m < 2^52] and [e = -1074]. *)
Inductive pyfloat : Type :=
| Finite (neg : bool) (m : Z) (e : Z)
| Infinity (neg : bool)
| NaN.

(** [shl n k] is [n * 2^k] for [0 <= k] and [n] otherwise, so that the
    rational [n * 2^k] is [shl n k / shl 1 (-k)]. *)
Definition shl (n k : Z) : Z := n * 2 ^ Z.max 0 k.

(** Nearest integer to [n / d] for [0 <= n] and [0 < d], ties to even. *)
Definition round_half_even (n d : Z) : Z :=
  let q := n / d in
  match 2 * (n mod d) ?= d with
  | Lt => q
  | Gt => q + 1
  | Eq => if Z.even q then q else q + 1
  end.

(** [floor (log2 (a / b))] for [0 < a] and [0 < b]. *)
Definition floor_log2_ratio (a b : Z) : Z :=
  let d := Z.log2 a - Z.log2 b in
  if shl a (- d) <? shl b d then d - 1 else d.

(** Significand and exponent of the binary64 value nearest to [a / b]
    (round to nearest, ties to even) for [0 < a] and [0 < b], the exponent
    range being unbounded above: the result overflows binary64 exactly
    when its exponent exceeds 971. *)
Definition nearest_binary64 (a b : Z) : Z * Z :=
  let e := floor_log2_ratio a b in
  let s := Z.max (e - 52) (-1074) in
  let m := round_half_even (shl a (- s)) (shl b s) in
  if m =? 0 then (0, 0)
  else if m =? 2 ^ 53 then (2 ^ 52, s + 1)
  else (m, s).

Definition max_exponent : Z := 971.

(** [a / b] on Python ints: the correctly rounded quotient. *)
Definition int_true_divide (a b : Z) : result pyfloat :=
  if b =? 0 then Raise ZeroDivisionError
  else
    let neg := xorb (a <? 0) (b <? 0) in
    if a =? 0 then Ok (Finite neg 0 0)
    else
      let '(m, s) := nearest_binary64 (Z.abs a) (Z.abs b) in
      if max_exponent <? s then Raise OverflowError
      else Ok (Finite neg m s).

(** Signed significand. *)
Definition signed (neg : bool) (m : Z) : Z := if neg then - m else m.

(** Python compares an int with a float by their exact values. *)
Definition int_le_float (n : Z) (x : pyfloat) : bool :=
  match x with
  | Finite neg m e => shl n (- e) <=? shl (signed neg m) e
  | Infinity neg => negb neg
  | NaN => false
  end.

Definition float_le_int (x : pyfloat) (n : Z) : bool :=
  match x with
  | Finite neg m e => shl (signed neg m) e <=? shl n (- e)
  | Infinity neg => neg
  | NaN => false
  end.

(** [x == n] for a float [x] and an int [n]. *)
Definition float_eq_int (x : pyfloat) (n : Z) : bool :=
  int_le_float n x && float_le_int x n.

End PyFloat.
Import PyFloat.

(** ** Text of numbers: [str], [repr], [format], [int] and [float] *)

Module PyText.

Definition text : Type := list ascii.

(** [str(n)] for an int. *)
Definition str_of_int (n : Z) : string := NilZero.string_of_int (Z.to_int n).

Definition is_digit (c : ascii) : bool :=
  let n := N_of_ascii c in ((48 <=? n) && (n <=? 57))%N.

Definition digit_value (c : ascii) : Z := Z.of_N (N_of_ascii c) - 48.

(** The whitespace [int] and [float] strip from an ASCII text. *)
Definition is_space (c : ascii) : bool :=
  let n := N_of_ascii c in (((9 <=? n) && (n <=? 13)) || (n =? 32))%N.

Fixpoint lstrip (l : text) : text :=
  match l with
  | c :: l' => if is_space c then lstrip l' else l
  | [] => []
  end.

Definition strip (l : text) : text := rev (lstrip (rev (lstrip l))).

Definition split_sign (l : text) : bool * text :=
  match l with
  | "-"%char :: l' => (true, l')
  | "+"%char :: l' => (false, l')
  | _ => (false, l)
  end.

(** A digit part is one or more decimal digits, with single underscores
    allowed between two digits. The result is its value and its number of
    digits. *)
Fixpoint digitpart_from (acc count : Z) (after_digit : bool) (l : text)
  : option (Z * Z) :=
  match l with
  | [] => if after_digit then Some (acc, count) else None
  | c :: l' =>
      if is_digit c
      then digitpart_from (10 * acc + digit_value c) (count + 1) true l'
      else if Ascii.eqb c "_"%char && after_digit
      then match l' with
           | c' :: _ => if is_digit c' then digitpart_from acc count false l'
                        else None
           | [] => None
           end
      else None
  end.

Definition digitpart (l : text) : option (Z * Z) := digitpart_from 0 0 false l.

(** [int(s)] in base 10. *)
Definition int_of_text (s : string) : result Z :=
  let '(neg, digits) := split_sign (strip (list_ascii_of_string s)) in
  match digitpart digits with
  | Some (v, _) => Ok (signed neg v)
  | None => Raise ValueError
  end.

(** Splits at the first character satisfying [p], which is dropped. *)
Fixpoint split_at (p : ascii -> bool) (l : text) : text * option text :=
  match l with
  | [] => ([], None)
  | c :: l' =>
      if p c then ([], Some l')
      else let '(a, b) := split_at p l' in (c :: a, b)
  end.

Definition lower (c : ascii) : ascii :=
  let n := N_of_ascii c in
  if ((65 <=? n) && (n <=? 90))%N then ascii_of_N (n + 32) else c.

Definition text_eqb (a : text) (b : string) : bool :=
  String.eqb (string_of_list_ascii a) b.

(** An empty digit part is allowed on one side of the decimal point. *)
Definition digitpart_or_empty (l : text) : option (Z * Z) :=
  match l with
  | [] => Some (0, 0)
  | _ => digitpart l
  end.

(** The mantissa [digits[.digits]] as an integer and its number of
    fractional digits. *)
Definition mantissa_of_text (l : text) : option (Z * Z) :=
  match split_at (Ascii.eqb "."%char) l with
  | (ip, None) => match digitpart ip with
                  | Some (i, _) => Some (i, 0)
                  | None => None
                  end
  | (ip, Some fp) =>
      match ip, fp with
      | [], [] => None
      | _, _ =>
          match digitpart_or_empty ip, digitpart_or_empty fp with
          | Some (i, _), Some (f, nf) => Some (i * 10 ^ nf + f, nf)
          | _, _ => None
          end
      end
  end.

Definition exponent_of_text (o : option text) : option Z :=
  match o with
  | None => Some 0
  | Some l =>
      let '(neg, digits) := split_sign l in
      match digitpart digits with
      | Some (x, _) => Some (signed neg x)
      | None => None
      end
  end.

Definition scale10 (n k : Z) : Z := n * 10 ^ Z.max 0 k.

(** The float nearest to [mant * 10^x]; an overflow gives an infinity. *)
Definition float_of_decimal (neg : bool) (mant x : Z) : pyfloat :=
  if mant =? 0 then Finite neg 0 0
  else
    let '(m, s) := nearest_binary64 (scale10 mant x) (scale10 1 (- x)) in
    if max_exponent <? s then Infinity neg else Finite neg m s.

(** [float(s)]. *)
Definition float_of_text (s : string) : result pyfloat :=
  let '(neg, body) := split_sign (strip (list_ascii_of_string s)) in
  let low := map lower body in
  if text_eqb low "inf"%string || text_eqb low "infinity"%string then Ok (Infinity neg)
  else if text_eqb low "nan"%string then Ok NaN
  else
    let '(mant, expo) := split_at (fun c => Ascii.eqb (lower c) "e"%char) body in
    match mantissa_of_text mant, exponent_of_text expo with
    | Some (i, nf), Some x => Ok (float_of_decimal neg i (x - nf))
    | _, _ => Raise ValueError
    end.

(** [floor (log10 n)] for [0 < n]. *)
Fixpoint ilog10_fuel (fuel : nat) (n : Z) : Z :=
  match fuel with
  | O => 0
  | S fuel' => if n <? 10 then 0 else 1 + ilog10_fuel fuel' (n / 10)
  end.

Definition ilog10 (n : Z) : Z := ilog10_fuel (Z.to_nat (Z.log2 n)) n.

(** [floor (log10 (a / b))] for [0 < a] and [0 < b]. *)
Definition floor_log10_ratio (a b : Z) : Z :=
  let d := ilog10 a - ilog10 b in
  if scale10 a (- d) <? scale10 b d then d - 1 else d.

(** Whether the decimal [c * 10^(-k)] reads back as the float [(m, e)]. *)
Definition reads_back (m e c k : Z) : bool :=
  let '(m', e') := nearest_binary64 (scale10 c (- k)) (scale10 1 k) in
  (m' =? m) && (e' =? e).

(** The shortest decimal [c * 10^(-k)] that reads back as [(m, e)], the
    closest to it when there are two: precisions [p], [p + 1], ... are tried
    in turn, at each one the two neighbours of the exact value. *)
Fixpoint shortest_from (fuel : nat) (p m e x : Z) : Z * Z :=
  let k := p - 1 - x in
  let n := scale10 (shl m e) k in
  let d := scale10 (shl 1 (- e)) (- k) in
  match fuel with
  | O => (round_half_even n d, k)
  | S fuel' =>
      let lo := n / d in
      let r := n mod d in
      let lo_ok := reads_back m e lo k in
      let hi_ok := negb (r =? 0) && reads_back m e (lo + 1) k in
      if lo_ok && hi_ok then (round_half_even n d, k)
      else if lo_ok then (lo, k)
      else if hi_ok then (lo + 1, k)
      else shortest_from fuel' (p + 1) m e x
  end.

Definition shortest_decimal (m e : Z) : Z * Z :=
  shortest_from 16 1 m e (floor_log10_ratio (shl m e) (shl 1 (- e))).

Fixpoint strip_zeros_fuel (fuel : nat) (c k : Z) : Z * Z :=
  match fuel with
  | O => (c, k)
  | S fuel' =>
      if (c mod 10 =? 0) && negb (c =? 0)
      then strip_zeros_fuel fuel' (c / 10) (k - 1)
      else (c, k)
  end.

Definition zeros (n : Z) : string :=
  string_of_list_ascii (repeat "0"%char (Z.to_nat n)).

Definition substring_from (n : nat) (s : string) : string :=
  String.substring n (String.length s - n) s.

Definition exponent_text (x : Z) : string :=
  let sign := if x <? 0 then "-"%string else "+"%string in
  let pad := if Z.abs x <? 10 then "0"%string else EmptyString in
  (sign ++ pad ++ str_of_int (Z.abs x))%string.

(** Layout of the digits [ds] of a value [0.ds * 10^decpt] as [repr] does. *)
Definition repr_layout (ds : string) (decpt : Z) : string :=
  let n := Z.of_nat (String.length ds) in
  let point := Z.to_nat decpt in
  if (decpt <=? -4) || (16 <? decpt)
  then
    let fraction :=
      if 1 <? n then ("." ++ substring_from 1 ds)%string else EmptyString in
    (String.substring 0 1 ds ++ fraction ++ "e"
       ++ exponent_text (decpt - 1))%string
  else if decpt <=? 0 then ("0." ++ zeros (- decpt) ++ ds)%string
  else if n <=? decpt then (ds ++ zeros (decpt - n) ++ ".0")%string
  else (String.substring 0 point ds ++ "." ++ substring_from point ds)%string.

Definition sign_text (neg : bool) : string :=
  if neg then "-"%string else EmptyString.

(** [repr(x)] and [str(x)] for a float. *)
Definition repr_float (x : pyfloat) : string :=
  match x with
  | NaN => "nan"%string
  | Infinity neg => (sign_text neg ++ "inf")%string
  | Finite neg m e =>
      if m =? 0 then (sign_text neg ++ "0.0")%string
      else
        let '(c, k) := shortest_decimal m e in
        let '(c', k') := strip_zeros_fuel 17 c k in
        let ds := str_of_int c' in
        let decpt := Z.of_nat (String.length ds) - k' in
        (sign_text neg ++ repr_layout ds decpt)%string
  end.

(** [format(x, '.1f')]. *)
Definition format_1f (x : pyfloat) : string :=
  match x with
  | NaN => "nan"%string
  | Infinity neg => (sign_text neg ++ "inf")%string
  | Finite neg m e =>
      let t := round_half_even (shl m e * 10) (shl 1 (- e)) in
      let units := str_of_int (t / 10) in
      let tenths := str_of_int (t mod 10) in
      (sign_text neg ++ units ++ "." ++ tenths)%string
  end.

End PyText.
Import PyText.

(** ** The csv module, excel dialect *)

Module Csv.

Definition QUOTECHAR : ascii := "034"%char.
Definition LF : ascii := "010"%char.
Definition CR : ascii := "013"%char.
Definition LINETERMINATOR : string := String CR (String LF EmptyString).
Definition DEFAULT_DELIMITER : ascii := ","%char.

(** *** Reader *)

(** Lines of a file opened with [newline=''], each with its line end. *)
Fixpoint lines_from (cur : text) (l : text) : list text :=
  match l with
  | [] => match cur with [] => [] | _ => [rev cur] end
  | c :: l' =>
      if Ascii.eqb c LF then rev (c :: cur) :: lines_from [] l'
      else if Ascii.eqb c CR
      then match l' with
           | c' :: l'' =>
               if Ascii.eqb c' LF then rev (c' :: c :: cur) :: lines_from [] l''
               else rev (c :: cur) :: lines_from [] l'
           | [] => [rev (c :: cur)]
           end
      else lines_from (c :: cur) l'
  end.

Inductive state : Type :=
| START_RECORD | START_FIELD | IN_FIELD | IN_QUOTED_FIELD
| QUOTE_IN_QUOTED_FIELD | EAT_CRNL.

(** The field and the fields of the record being read, latest first. *)
Record parser : Type := mkParser {
  st : state;
  field : text;
  fields : list string
}.

Definition parse_reset : parser := mkParser START_RECORD [] [].

Definition save_field (p : parser) : parser :=
  mkParser (st p) [] (string_of_list_ascii (rev (field p)) :: fields p).

Definition add_char (c : ascii) (p : parser) : parser :=
  mkParser (st p) (c :: field p) (fields p).

Definition goto (s : state) (p : parser) : parser :=
  mkParser s (field p) (fields p).

Definition is_newline (c : ascii) : bool := Ascii.eqb c LF || Ascii.eqb c CR.

(** One step of the reader; [None] is the end of a line. *)
Definition end_of_field (c : option ascii) (p : parser) : parser :=
  goto (match c with None => START_RECORD | Some _ => EAT_CRNL end)
       (save_field p).

Definition start_field (delimiter : ascii) (c : option ascii) (p : parser)
  : parser :=
  match c with
  | None => end_of_field c p
  | Some a =>
      if is_newline a then end_of_field c p
      else if Ascii.eqb a QUOTECHAR then goto IN_QUOTED_FIELD p
      else if Ascii.eqb a delimiter then save_field p
      else goto IN_FIELD (add_char a p)
  end.

Definition process_char (delimiter : ascii) (p : parser) (c : option ascii)
  : parser :=
  match st p with
  | START_RECORD =>
      match c with
      | None => p
      | Some a =>
          if is_newline a then goto EAT_CRNL p
          else start_field delimiter c (goto START_FIELD p)
      end
  | START_FIELD => start_field delimiter c p
  | IN_FIELD =>
      match c with
      | None => end_of_field c p
      | Some a =>
          if is_newline a then end_of_field c p
          else if Ascii.eqb a delimiter then goto START_FIELD (save_field p)
          else add_char a p
      end
  | IN_QUOTED_FIELD =>
      match c with
      | None => p
      | Some a =>
          if Ascii.eqb a QUOTECHAR then goto QUOTE_IN_QUOTED_FIELD p
          else add_char a p
      end
  | QUOTE_IN_QUOTED_FIELD =>
      match c with
      | None => end_of_field c p
      | Some a =>
          if Ascii.eqb a QUOTECHAR then goto IN_QUOTED_FIELD (add_char a p)
          else if Ascii.eqb a delimiter then goto START_FIELD (save_field p)
          else if is_newline a then end_of_field c p
          else goto IN_FIELD (add_char a p)
      end
  | EAT_CRNL =>
      match c with
      | None => goto START_RECORD p
      | Some _ => p
      end
  end.

Definition process_line (delimiter : ascii) (p : parser) (line : text)
  : parser :=
  process_char delimiter
    (fold_left (fun q c => process_char delimiter q (Some c)) line p) None.

Definition is_start_record (s : state) : bool :=
  match s with START_RECORD => true | _ => false end.

Definition is_in_quoted_field (s : state) : bool :=
  match s with IN_QUOTED_FIELD => true | _ => false end.

Definition is_nil {A : Type} (l : list A) : bool :=
  match l with [] => true | _ => false end.

(** The rows the reader yields: a record ends with the line on which the
    parser is back at the start of a record; a record cut by the end of the
    file is yielded when a field is under way. *)
Fixpoint records_from (delimiter : ascii) (p : parser) (ls : list text)
  : list (list string) :=
  match ls with
  | [] =>
      if negb (is_nil (field p)) || is_in_quoted_field (st p)
      then [rev (fields (save_field p))]
      else []
  | line :: ls' =>
      let p' := process_line delimiter p line in
      if is_start_record (st p')
      then rev (fields p') :: records_from delimiter parse_reset ls'
      else records_from delimiter p' ls'
  end.

(** [list(csv.reader(f, delimiter=delimiter))] for a file of content [s]. *)
Definition reader (delimiter : ascii) (s : string) : list (list string) :=
  records_from delimiter parse_reset (lines_from [] (list_ascii_of_string s)).

(** A dict with string keys, in insertion order. *)
Definition dict (V : Type) : Type := list (string * V).

Fixpoint dict_set {V : Type} (k : string) (v : V) (d : dict V) : dict V :=
  match d with
  | [] => [(k, v)]
  | (k', v') :: d' =>
      if String.eqb k k' then (k', v) :: d' else (k', v') :: dict_set k v d'
  end.

Fixpoint dict_get {V : Type} (k : string) (d : dict V) : option V :=
  match d with
  | [] => None
  | (k', v') :: d' => if String.eqb k k' then Some v' else dict_get k d'
  end.

(** [d[k]], raising [KeyError]. *)
Definition dict_item {V : Type} (k : string) (d : dict V) : result V :=
  match dict_get k d with
  | Some v => Ok v
  | None => Raise (KeyError k)
  end.

(** A cell of a [DictReader] row: its text, or [None] where the row is
    shorter than the header. *)
Definition cell : Type := option string.

(** The dict [DictReader] builds for a row: [dict(zip(fieldnames, row))],
    then [None] under the field names beyond the row.  The cells beyond the
    header go under the key [None], which no field name equals. *)
Definition dictreader_row (fieldnames row : list string) : dict cell :=
  let d := fold_left (fun d kv => dict_set (fst kv) (Some (snd kv)) d)
                     (combine fieldnames row) [] in
  fold_left (fun d k => dict_set k None d)
            (skipn (List.length row) fieldnames) d.

(** [list(csv.DictReader(...))] over the rows of the underlying reader: the
    first row gives the field names, empty rows are skipped. *)
Definition DictReader (rows : list (list string)) : list (dict cell) :=
  match rows with
  | [] => []
  | fieldnames :: rows' =>
      map (dictreader_row fieldnames)
          (filter (fun row => negb (is_nil row)) rows')
  end.

(** *** Writer *)

Definition needs_quotes (delimiter : ascii) (c : ascii) : bool :=
  Ascii.eqb c delimiter || Ascii.eqb c QUOTECHAR
  || existsb (Ascii.eqb c) (list_ascii_of_string LINETERMINATOR).

(** A field as written with [QUOTE_MINIMAL] and [doublequote]. *)
Definition join_append (delimiter : ascii) (s : string) : string :=
  let cs := list_ascii_of_string s in
  let body :=
    flat_map (fun c => if Ascii.eqb c QUOTECHAR then [c; c] else [c]) cs in
  string_of_list_ascii
    (if existsb (needs_quotes delimiter) cs
     then QUOTECHAR :: body ++ [QUOTECHAR]
     else body).

Fixpoint join (delimiter : ascii) (l : list string) : string :=
  match l with
  | [] => EmptyString
  | [s] => s
  | s :: l' => (s ++ String delimiter (join delimiter l'))%string
  end.

(** [writer.writerow(row)]: the text appended to the file. A record of one
    empty field is written as a pair of quotes. *)
Definition writerow (delimiter : ascii) (row : list string) : string :=
  let line := join delimiter (map (join_append delimiter) row) in
  let line' :=
    if negb (is_nil row) && String.eqb line EmptyString
    then String QUOTECHAR (String QUOTECHAR EmptyString)
    else line in
  (line' ++ LINETERMINATOR)%string.

End Csv.
Import Csv.

(** ** report.py *)

Open Scope string_scope.

Definition INPUT_FILE_NAME : string := "Corp_Summary.csv".
Definition DELIMITER : ascii := ";"%char.

Definition FULL_NAME_FIELD : string := "ФИО полностью".
Definition DEPARTMENT_FIELD : string := "Департамент".
Definition TEAM_FIELD : string := "Отдел".
Definition POSITION_FIELD : string := "Должность".
Definition RATING_FIELD : string := "Оценка".
Definition SALARY_FIELD : string := "Оклад".

(** The callables [str], [float] and [int] of [REQUIRED_FIELDS]. *)
Inductive coercion : Type := to_str | to_float | to_int.

Definition REQUIRED_FIELDS : list (string * coercion) :=
  [(FULL_NAME_FIELD, to_str); (DEPARTMENT_FIELD, to_str);
   (TEAM_FIELD, to_str); (RATING_FIELD, to_float); (SALARY_FIELD, to_int)].

Definition OUTPUT_FILE_NAME : string := "Departments_Summary.csv".

Record DepartmentSummary : Type := mkDepartmentSummary {
  name : string;
  headcount : Z;
  min_salary : Z;
  max_salary : Z;
  avg_salary : pyfloat
}.

Definition DepartmentSummary_fields : list string :=
  ["name"; "headcount"; "min_salary"; "max_salary"; "avg_salary"].

(** A file system: the content of the files that exist. *)
Definition file_system : Type := string -> option string.

Definition write_file (file_name content : string) (fs : file_system)
  : file_system :=
  fun n => if String.eqb n file_name then Some content else fs n.

(** *** read_input_file *)

(** [str(c)], [float(c)] and [int(c)] on a cell. *)
Definition py_str (c : cell) : result string :=
  match c with
  | Some s => Ok s
  | None => Ok "None"
  end.

Definition py_float (c : cell) : result pyfloat :=
  match c with
  | Some s => float_of_text s
  | None => Raise TypeError
  end.

Definition py_int (c : cell) : result Z :=
  match c with
  | Some s => int_of_text s
  | None => Raise TypeError
  end.

(** A parsed row: the dict of the five required fields, each of its
    declared type. *)
Record Employee : Type := mkEmployee {
  full_name : string;
  department : string;
  team : string;
  rating : pyfloat;
  salary : Z
}.

(** [{field: value(row[field]) for field, value in REQUIRED_FIELDS.items()}]:
    the items are evaluated in the order of [REQUIRED_FIELDS], the lookup
    [row[field]] before the call of [value]. *)
Definition parse_row (row : dict cell) : result Employee :=
  n <- (c <- dict_item FULL_NAME_FIELD row ;; py_str c) ;;
  d <- (c <- dict_item DEPARTMENT_FIELD row ;; py_str c) ;;
  t <- (c <- dict_item TEAM_FIELD row ;; py_str c) ;;
  r <- (c <- dict_item RATING_FIELD row ;; py_float c) ;;
  s <- (c <- dict_item SALARY_FIELD row ;; py_int c) ;;
  Ok (mkEmployee n d t r s).

Definition read_input_file (fs : file_system) (file_name : string)
  : result (list Employee) :=
  match fs file_name with
  | None => Raise FileNotFoundError
  | Some input_file =>
      comprehension parse_row (DictReader (reader DELIMITER input_file))
  end.

(** *** print_company_hierarchy *)

(** [d[k] = f(d[k])] on a defaultdict: a missing key is first inserted with
    the default value, after the keys already there. *)
Fixpoint defaultdict_update {V : Type} (default : V) (f : V -> V)
  (k : string) (d : dict V) : dict V :=
  match d with
  | [] => [(k, f default)]
  | (k', v) :: d' =>
      if String.eqb k k' then (k', f v) :: d'
      else (k', v) :: defaultdict_update default f k d'
  end.

(** A set of strings, as the list of its elements without repetition. *)
Definition set_add (x : string) (s : list string) : list string :=
  if existsb (String.eqb x) s then s else s ++ [x].

(** The mapping [departments] after the first loop. *)
Definition company_hierarchy (rows : list Employee) : dict (list string) :=
  fold_left
    (fun departments row =>
       defaultdict_update [] (set_add (team row)) (department row) departments)
    rows [].

(** The printed lines. The order in which a set is iterated is fixed by the
    hashes of its elements: [iter_set] stands for it. *)
Definition print_company_hierarchy (iter_set : list string -> list string)
  (rows : list Employee) : list string :=
  flat_map
    (fun item => fst item :: map (fun team => "  " ++ team) (iter_set (snd item)))
    (company_hierarchy rows).

(** *** build_department_summaries *)

Definition salaries_by_department (rows : list Employee) : dict (list Z) :=
  fold_left
    (fun d row =>
       defaultdict_update [] (fun l => (l ++ [salary row])%list) (department row) d)
    rows [].

(** [min], [max] and [sum] on a list of ints. *)
Definition py_min (l : list Z) : result Z :=
  match l with
  | [] => Raise ValueError
  | x :: l' => Ok (fold_left Z.min l' x)
  end.

Definition py_max (l : list Z) : result Z :=
  match l with
  | [] => Raise ValueError
  | x :: l' => Ok (fold_left Z.max l' x)
  end.

Definition py_sum (l : list Z) : Z := fold_left Z.add l 0%Z.

Definition py_len {A : Type} (l : list A) : Z := Z.of_nat (List.length l).

Definition summarize (item : string * list Z) : result DepartmentSummary :=
  let '(department_name, salaries) := item in
  let n := py_len salaries in
  lo <- py_min salaries ;;
  hi <- py_max salaries ;;
  avg <- int_true_divide (py_sum salaries) (py_len salaries) ;;
  Ok (mkDepartmentSummary department_name n lo hi avg).

Definition build_department_summaries (rows : list Employee)
  : result (list DepartmentSummary) :=
  comprehension summarize (salaries_by_department rows).

(** *** print_department_summaries *)

Definition summary_line (summary : DepartmentSummary) : string :=
  name summary ++ ": headcount: " ++ str_of_int (headcount summary)
    ++ ", min: " ++ str_of_int (min_salary summary)
    ++ ", max: " ++ str_of_int (max_salary summary)
    ++ ", avg: " ++ format_1f (avg_salary summary).

Definition print_department_summaries (summaries : list DepartmentSummary)
  : list string :=
  map summary_line summaries.

(** *** write_department_summaries *)

Inductive pyval : Type :=
| VStr (s : string)
| VInt (n : Z)
| VFloat (x : pyfloat).

(** The text the csv writer gives a value. *)
Definition field_text (v : pyval) : string :=
  match v with
  | VStr s => s
  | VInt n => str_of_int n
  | VFloat x => repr_float x
  end.

Definition asdict (summary : DepartmentSummary) : dict pyval :=
  [("name", VStr (name summary));
   ("headcount", VInt (headcount summary));
   ("min_salary", VInt (min_salary summary));
   ("max_salary", VInt (max_salary summary));
   ("avg_salary", VFloat (avg_salary summary))].

(** [csv.DictWriter(output_file, fieldnames)], with the default delimiter:
    a writer is its field names and the text written so far. *)
Record DictWriter : Type := mkDictWriter {
  fieldnames : list string;
  output_file : string
}.

Definition dict_to_list (w : DictWriter) (rowdict : dict pyval)
  : list string :=
  map (fun key => match dict_get key rowdict with
                  | Some v => field_text v
                  | None => EmptyString
                  end)
      (fieldnames w).

Definition emit (w : DictWriter) (row : list string) : DictWriter :=
  mkDictWriter (fieldnames w)
               (output_file w ++ writerow DEFAULT_DELIMITER row).

Definition writeheader (w : DictWriter) : DictWriter :=
  emit w (fieldnames w).

Definition writerows (w : DictWriter) (rowdicts : list (dict pyval))
  : DictWriter :=
  fold_left (fun w' rowdict => emit w' (dict_to_list w' rowdict)) rowdicts w.

(** The content of the output file. *)
Definition written_summaries (summaries : list DepartmentSummary) : string :=
  let writer := mkDictWriter DepartmentSummary_fields EmptyString in
  let writer := writeheader writer in
  output_file (writerows writer (map asdict summaries)).

Definition write_department_summaries (summaries : list DepartmentSummary)
  (file_name : string) (fs : file_system) : file_system :=
  write_file file_name (written_summaries summaries) fs.

(** ** Notions used to state the properties *)

Close Scope string_scope.
Open Scope list_scope.

Definition mem (x : string) (l : list string) : bool :=
  existsb (String.eqb x) l.

(** The distinct elements of a list, in the order of their first
    occurrence. *)
Fixpoint first_occurrences (l : list string) : list string :=
  match l with
  | [] => []
  | x :: l' =>
      x :: filter (fun y => negb (String.eqb y x)) (first_occurrences l')
  end.

(** The records of a department, in input order, and their salaries. *)
Definition records_of (d : string) (rows : list Employee) : list Employee :=
  filter (fun row => String.eqb (department row) d) rows.

Definition salaries_of (d : string) (rows : list Employee) : list Z :=
  map salary (records_of d rows).

(** The cells of the row written for a summary. *)
Definition summary_cells (summary : DepartmentSummary) : list string :=
  [name summary; str_of_int (headcount summary);
   str_of_int (min_salary summary); str_of_int (max_salary summary);
   repr_float (avg_salary summary)].

(** A table as delimited text: one line per row, the cells separated by
    [delimiter]. *)
Definition delimited_table (delimiter : ascii) (rows : list (list string))
  : string :=
  String.concat EmptyString (map (writerow delimiter) rows).

(** The header of a file and its data rows, as [DictReader] takes them. *)
Definition header_of (content : string) : list string :=
  hd [] (reader DELIMITER content).

Definition data_rows_of (content : string) : list (list string) :=
  filter (fun row => negb (is_nil row)) (tl (reader DELIMITER content)).

(** The first required field, in the order of [REQUIRED_FIELDS], that a
    header does not name. *)
Definition first_missing_field (header : list string) : option string :=
  find (fun f => negb (mem f header)) (map fst REQUIRED_FIELDS).

(** One step of the grouping loops: [d[key(row)] = upd(row, d[key(row)])]
    on a defaultdict. *)
Definition group_step {R V : Type} (key : R -> string) (default : V)
  (upd : R -> V -> V) (d : dict V) (row : R) : dict V :=
  defaultdict_update default (upd row) (key row) d.

(** The exponent and the significand of [nearest_binary64] before
    normalisation. *)
Definition raw_exponent (a b : Z) : Z :=
  Z.max (floor_log2_ratio a b - 52) (-1074).

Definition raw_significand (a b : Z) : Z :=
  let s := raw_exponent a b in round_half_even (shl a (- s)) (shl b s).

(** [x] is a canonical float with the sign of [a], within half a unit in
    the last place of the exact ratio [a / n]. *)
Definition nearest_to (x : pyfloat) (a n : Z) : Prop :=
  match x with
  | Finite neg m e =>
      neg = (a <? 0)
      /\ ((m = 0 /\ e = 0)
          \/ (0 < m < 2 ^ 52 /\ e = -1074)
          \/ (2 ^ 52 <= m < 2 ^ 53 /\ -1074 <= e <= max_exponent))
      /\ 2 * Z.abs (m * shl n e - shl (Z.abs a) (- e)) <= shl n e
  | _ => False
  end.

(** A cell fails the coercion declared for its field. *)
Definition coercion_fails (co : coercion) (c : cell) : Prop :=
  match co with
  | to_str => exists e, py_str c = Raise e
  | to_float => exists e, py_float c = Raise e
  | to_int => exists e, py_int c = Raise e
  end.

(** [r] is the typed record of the row [d]: each field of [r] is the
    coercion of the cell [d] holds under the field's name. *)
Definition typed_record (d : dict cell) (r : Employee) : Prop :=
  (exists c, dict_get FULL_NAME_FIELD d = Some c /\ py_str c = Ok (full_name r))
  /\ (exists c, dict_get DEPARTMENT_FIELD d = Some c
                /\ py_str c = Ok (department r))
  /\ (exists c, dict_get TEAM_FIELD d = Some c /\ py_str c = Ok (team r))
  /\ (exists c, dict_get RATING_FIELD d = Some c /\ py_float c = Ok (rating r))
  /\ (exists c, dict_get SALARY_FIELD d = Some c /\ py_int c = Ok (salary r)).

(** The rows of a file as [DictReader] yields them. *)
Definition table_of (content : string) : list (dict cell) :=
  map (dictreader_row (header_of content)) (data_rows_of content).

(** The header row of the summary file. *)
Definition summary_header : list string :=
  ["name"; "headcount"; "min_salary"; "max_salary"; "avg_salary"]%string.

(** ** Example inputs *)

Module Examples.

Open Scope string_scope.

Definition employee (d t : string) (s : Z) : Employee :=
  mkEmployee "N. N." d t (Finite false 0 0) s.

(** The records of three employees in two departments. *)
Definition rows : list Employee :=
  [employee "Eng" "Core" 100; employee "Eng" "Infra" 200;
   employee "Sales" "EMEA" 150].

Definition eng : DepartmentSummary :=
  mkDepartmentSummary "Eng" 2 100 200 (Finite false 5277655813324800 (-45)).

Definition sales : DepartmentSummary :=
  mkDepartmentSummary "Sales" 1 150 150 (Finite false 5277655813324800 (-45)).

(** Salaries whose mean is not a multiple of a tenth. *)
Definition thirds : list Employee :=
  [employee "Eng" "Core" 1; employee "Eng" "Core" 2; employee "Eng" "Infra" 2].

(** A salary that is not a binary64 value. *)
Definition odd_rows : list Employee := [employee "Eng" "Core" (2 ^ 53 + 1)].

(** Salaries too large for a float. *)
Definition huge_rows : list Employee := [employee "Eng" "Core" (2 ^ 1024)].

Definition huge_rows2 : list Employee :=
  [employee "Sales" "EMEA" 150; employee "Eng" "Core" (2 ^ 1024)].

Definition one_file (content : string) : file_system :=
  fun n => if String.eqb n INPUT_FILE_NAME then Some content else None.

Definition header_line : string :=
  FULL_NAME_FIELD ++ ";" ++ DEPARTMENT_FIELD ++ ";" ++ TEAM_FIELD ++ ";"
    ++ POSITION_FIELD ++ ";" ++ RATING_FIELD ++ ";" ++ SALARY_FIELD
    ++ LINETERMINATOR.

(** The header without the salary column. *)
Definition short_header_line : string :=
  FULL_NAME_FIELD ++ ";" ++ DEPARTMENT_FIELD ++ ";" ++ TEAM_FIELD ++ ";"
    ++ POSITION_FIELD ++ ";" ++ RATING_FIELD ++ LINETERMINATOR.

(** Two employees, with an empty line between them. *)
Definition input : string :=
  header_line ++ "Ann;Eng;Core;dev;4.5;100" ++ LINETERMINATOR
    ++ LINETERMINATOR ++ "Bob;Eng;Infra;ops;3;200" ++ LINETERMINATOR.

Definition input_rows : list Employee :=
  [mkEmployee "Ann" "Eng" "Core" (Finite false 5066549580791808 (-50)) 100;
   mkEmployee "Bob" "Eng" "Infra" (Finite false 6755399441055744 (-51)) 200].

(** No salary column, one employee. *)
Definition input_without_salary : string :=
  short_header_line ++ "Ann;Eng;Core;dev;4.5" ++ LINETERMINATOR.

(** No salary column and a rating that is not a number. *)
Definition input_without_salary_bad_rating : string :=
  short_header_line ++ "Ann;Eng;Core;dev;good" ++ LINETERMINATOR.

End Examples.

(** ** main *)

Module Main.

Open Scope string_scope.

Definition NL : string := String LF EmptyString.

(** The text printed at the start of every iteration. *)
Definition MENU : string :=
  NL ++ "Please, choose one of the available options: " ++ NL
    ++ "to print the teams hierarchy, type '1'" ++ NL
    ++ "to print the summary of all departments, type '2'" ++ NL
    ++ "to save the summary into 'Departments_Summary.csv', type  '3'" ++ NL
    ++ "quit, type 'q'" ++ NL.

(** How the process ends: [sys.exit(code)], an exception nobody catches,
    or the [EOFError] of [input()] when the standard input is exhausted. *)
Inductive termination : Type :=
| Exit (code : Z)
| Uncaught (e : py_error)
| EndOfInput.

(** The state of the process when it ends: the files and the arguments of
    the calls of [print], in order. *)
Record final : Type := mkFinal {
  ended : termination;
  files : file_system;
  printed : list string
}.

(** [main()], given the lines [input()] returns one after the other. Every
    iteration prints the menu and reads one line. *)
Fixpoint main (iter_set : list string -> list string) (stdin : list string)
  (fs : file_system) (out : list string) : final :=
  let out := (out ++ [MENU])%list in
  match stdin with
  | [] => mkFinal EndOfInput fs out
  | option :: stdin' =>
      if String.eqb option "q" then mkFinal (Exit 0) fs out
      else if String.eqb option "1" then
        match read_input_file fs INPUT_FILE_NAME with
        | Raise e => mkFinal (Uncaught e) fs out
        | Ok rows =>
            main iter_set stdin' fs
                 (out ++ print_company_hierarchy iter_set rows)%list
        end
      else if String.eqb option "2" then
        match read_input_file fs INPUT_FILE_NAME with
        | Raise e => mkFinal (Uncaught e) fs out
        | Ok rows =>
            match build_department_summaries rows with
            | Raise e => mkFinal (Uncaught e) fs out
            | Ok summaries =>
                main iter_set stdin' fs
                     (out ++ print_department_summaries summaries)%list
            end
        end
      else if String.eqb option "3" then
        match read_input_file fs INPUT_FILE_NAME with
        | Raise e => mkFinal (Uncaught e) fs out
        | Ok rows =>
            match build_department_summaries rows with
            | Raise e => mkFinal (Uncaught e) fs out
            | Ok summaries =>
                main iter_set stdin'
                     (write_department_summaries summaries OUTPUT_FILE_NAME fs)
                     out
            end
        end
      else main iter_set stdin' fs out
  end.

(** What a session prints in answer to one line, when the input file loads
    as [rows] and their summaries are [summaries]. *)
Definition response (iter_set : list string -> list string)
  (rows : list Employee) (summaries : list DepartmentSummary)
  (option : string) : list string :=
  if String.eqb option "1" then print_company_hierarchy iter_set rows
  else if String.eqb option "2" then print_department_summaries summaries
  else [].

End Main.

(** ** Further notions *)

(** The distinct teams of a department, in the order of their first
    occurrence. *)
Definition teams_of (d : string) (rows : list Employee) : list string :=
  first_occurrences (map team (records_of d rows)).

(** *** The reader as a machine that takes one character at a time *)

(** Where the reader is in the current line: at its start, inside it, or
    after a carriage return that ends it unless a line feed follows. *)
Inductive pending : Type := AtLineStart | MidLine | AfterCR.

Record scanner : Type := mkScanner {
  sparser : parser;
  spending : pending;
  srecords : list (list string)
}.

(** The end of a line: the record is complete when the parser is back at
    the start of a record. The records are kept latest first. *)
Definition end_line (delimiter : ascii) (p : parser)
  (records : list (list string)) : parser * list (list string) :=
  let p' := process_char delimiter p None in
  if is_start_record (st p') then (parse_reset, rev (fields p') :: records)
  else (p', records).

Definition scan_char (delimiter : ascii) (p : parser)
  (records : list (list string)) (c : ascii) : scanner :=
  let p1 := process_char delimiter p (Some c) in
  if Ascii.eqb c LF
  then let '(p2, records2) := end_line delimiter p1 records in
       mkScanner p2 AtLineStart records2
  else if Ascii.eqb c CR then mkScanner p1 AfterCR records
  else mkScanner p1 MidLine records.

Definition scan_step (delimiter : ascii) (s : scanner) (c : ascii)
  : scanner :=
  match spending s with
  | AfterCR =>
      if Ascii.eqb c LF
      then let '(p2, records2) :=
             end_line delimiter
               (process_char delimiter (sparser s) (Some c)) (srecords s) in
           mkScanner p2 AtLineStart records2
      else let '(p1, records1) :=
             end_line delimiter (sparser s) (srecords s) in
           scan_char delimiter p1 records1 c
  | _ => scan_char delimiter (sparser s) (srecords s) c
  end.

(** The rows at the end of the file. *)
Definition scan_finish (delimiter : ascii) (s : scanner)
  : list (list string) :=
  let '(p, records) :=
    match spending s with
    | AtLineStart => (sparser s, srecords s)
    | _ => end_line delimiter (sparser s) (srecords s)
    end in
  rev records ++ records_from delimiter p [].

Definition scan (delimiter : ascii) (l : text) : list (list string) :=
  scan_finish delimiter
    (fold_left (scan_step delimiter) l
       (mkScanner parse_reset AtLineStart [])).

(** The characters of a quoted field between its quotes. *)
Definition escaped (cs : text) : text :=
  flat_map (fun c => if Ascii.eqb c QUOTECHAR then [c; c] else [c]) cs.

(** A character that needs no quotes. *)
Definition plain (delimiter : ascii) (c : ascii) : bool :=
  negb (needs_quotes delimiter c).

Definition not_after_cr (pend : pending) : Prop := pend <> AfterCR.

(** The parser has read the whole of the field [s], which it has not saved
    yet, after the fields [saved] of the same record. *)
Definition holds_field (p : parser) (s : string) (saved : list string)
  : Prop :=
  fields p = saved
  /\ field p = rev (list_ascii_of_string s)
  /\ (st p = IN_FIELD \/ st p = QUOTE_IN_QUOTED_FIELD
      \/ ((st p = START_FIELD \/ st p = START_RECORD) /\ s = EmptyString)).

(** Further example inputs. *)
Module MoreExamples.

Open Scope string_scope.

(** The numeric columns first, and a row that stops after the name. *)
Definition input_numbers_first : string :=
  RATING_FIELD ++ ";" ++ SALARY_FIELD ++ ";" ++ FULL_NAME_FIELD ++ ";"
    ++ DEPARTMENT_FIELD ++ ";" ++ TEAM_FIELD ++ LINETERMINATOR
    ++ "4.5;100;Ann" ++ LINETERMINATOR.

(** A row that stops before the rating and the salary. *)
Definition input_row_too_short : string :=
  Examples.header_line ++ "Ann;Eng" ++ LINETERMINATOR.

(** Salaries too large for a float, in a file. *)
Definition input_huge_salary : string :=
  Examples.header_line
    ++ "Ann;Eng;Core;dev;4.5;1" ++ PyText.zeros 400 ++ LINETERMINATOR.

End MoreExamples.

(** ** Lemmas on comprehensions *)

Section Comprehension.

Context {A B : Type}.
Variable f : A -> result B.

Lemma comprehension_Ok :
  forall l ys, comprehension f l = Ok ys ->
               Forall2 (fun x y => f x = Ok y) l ys.
Proof.
  induction l as [|x l IH]; intros ys H; simpl in H.
  - injection H as <-. constructor.
  - destruct (f x) as [y|e] eqn:Hx; simpl in H; [|discriminate].
    destruct (comprehension f l) as [ys'|e] eqn:Hl; simpl in H;
      [|discriminate].
    injection H as <-. constructor; auto.
Qed.

Lemma comprehension_Raise :
  forall l e, comprehension f l = Raise e ->
              exists x, In x l /\ f x = Raise e.
Proof.
  induction l as [|x l IH]; intros e H; simpl in H; [discriminate|].
  destruct (f x) as [y|e'] eqn:Hx; simpl in H.
  - destruct (comprehension f l) as [ys'|e''] eqn:Hl; simpl in H;
      [discriminate|].
    injection H as <-. destruct (IH _ eq_refl) as (x' & Hin & Hx').
    exists x'. split; [right|]; assumption.
  - injection H as <-. exists x. split; [left; reflexivity|assumption].
Qed.

Lemma comprehension_total :
  forall l, (forall x, In x l -> exists y, f x = Ok y) ->
            exists ys, comprehension f l = Ok ys.
Proof.
  induction l as [|x l IH]; intros H; simpl.
  - eexists; reflexivity.
  - destruct (H x (or_introl eq_refl)) as [y ->].
    destruct IH as [ys ->]; [intros; apply H; right; assumption|].
    simpl. eexists; reflexivity.
Qed.

Lemma comprehension_fails :
  forall l x e, In x l -> f x = Raise e ->
                exists e', comprehension f l = Raise e'.
Proof.
  induction l as [|x0 l IH]; intros x e Hin Hx; [contradiction|].
  simpl. destruct (f x0) as [y|e0] eqn:H0; simpl.
  - destruct Hin as [->|Hin]; [congruence|].
    destruct (IH _ _ Hin Hx) as [e' ->]. simpl. eexists; reflexivity.
  - eexists; reflexivity.
Qed.

End Comprehension.

(** ** Lemmas on dicts and grouping *)

Lemma mem_In : forall x l, mem x l = true <-> In x l.
Proof.
  intros x l. unfold mem. rewrite existsb_exists. split.
  - intros (y & Hy & E). apply String.eqb_eq in E. subst. assumption.
  - intros H. exists x. split; [assumption|apply String.eqb_refl].
Qed.

Lemma mem_app : forall x l1 l2, mem x (l1 ++ l2) = mem x l1 || mem x l2.
Proof. intros. unfold mem. apply existsb_app. Qed.

Lemma filter_filter :
  forall {A : Type} (p q : A -> bool) (l : list A),
    filter p (filter q l) = filter (fun x => q x && p x) l.
Proof.
  induction l as [|x l IH]; simpl; [reflexivity|].
  destruct (q x); simpl; [destruct (p x)|]; rewrite ?IH; reflexivity.
Qed.

Lemma first_occurrences_In :
  forall l x, In x (first_occurrences l) <-> In x l.
Proof.
  induction l as [|y l IH]; intros x; simpl; [tauto|].
  rewrite filter_In, IH. split.
  - intros [H|[H _]]; auto.
  - intros [H|H]; auto.
    destruct (String.eqb x y) eqn:E.
    + apply String.eqb_eq in E. auto.
    + right. auto.
Qed.

Lemma first_occurrences_NoDup : forall l, NoDup (first_occurrences l).
Proof.
  induction l as [|y l IH]; simpl; constructor.
  - rewrite filter_In. intros [_ H]. rewrite String.eqb_refl in H.
    discriminate.
  - apply NoDup_filter. assumption.
Qed.

Section Grouping.

Context {R V : Type}.
Variable key : R -> string.
Variable default : V.
Variable upd : R -> V -> V.

Local Abbreviation group_step := (group_step key default upd).

Lemma defaultdict_update_keys :
  forall (f : V -> V) k (d : dict V),
    map fst (defaultdict_update default f k d)
    = if mem k (map fst d) then map fst d else map fst d ++ [k].
Proof.
  intros f k. induction d as [|[k' v] d IH]; simpl; [reflexivity|].
  destruct (String.eqb k k'); simpl; [reflexivity|].
  rewrite IH. destruct (mem k (map fst d)); reflexivity.
Qed.

Lemma defaultdict_update_get :
  forall (f : V -> V) k (d : dict V) k',
    dict_get k' (defaultdict_update default f k d)
    = if String.eqb k' k
      then Some (f (match dict_get k d with Some v => v | None => default end))
      else dict_get k' d.
Proof.
  intros f k d k'. induction d as [|[k0 v] d IH]; simpl.
  - destruct (String.eqb k' k); reflexivity.
  - destruct (String.eqb k k0) eqn:E0; simpl.
    + apply String.eqb_eq in E0. subst k0.
      destruct (String.eqb k' k); reflexivity.
    + rewrite IH. destruct (String.eqb k' k) eqn:E1; [|reflexivity].
      apply String.eqb_eq in E1. subst k'. rewrite E0. reflexivity.
Qed.

Lemma group_keys :
  forall rows acc,
    map fst (fold_left group_step rows acc)
    = map fst acc
        ++ filter (fun d => negb (mem d (map fst acc)))
                  (first_occurrences (map key rows)).
Proof.
  induction rows as [|r rows IH]; intros acc; simpl.
  - symmetry. apply app_nil_r.
  - rewrite IH. unfold group_step. rewrite !defaultdict_update_keys.
    destruct (mem (key r) (map fst acc)) eqn:Hm; simpl.
    + f_equal. rewrite filter_filter. apply filter_ext_in.
      intros d _. destruct (String.eqb d (key r)) eqn:E; simpl;
        [|reflexivity].
      apply String.eqb_eq in E. subst d. rewrite Hm. reflexivity.
    + rewrite <- app_assoc. simpl. do 2 f_equal.
      rewrite filter_filter. apply filter_ext.
      intros d. rewrite mem_app. simpl.
      rewrite orb_false_r, negb_orb. apply andb_comm.
Qed.

Lemma group_get :
  forall rows acc d,
    dict_get d (fold_left group_step rows acc)
    = let rs := filter (fun r => String.eqb (key r) d) rows in
      match dict_get d acc, rs with
      | None, [] => None
      | Some v, _ => Some (fold_left (fun v r => upd r v) rs v)
      | None, _ => Some (fold_left (fun v r => upd r v) rs default)
      end.
Proof.
  induction rows as [|r rows IH]; intros acc d; simpl.
  - destruct (dict_get d acc); reflexivity.
  - rewrite IH. unfold group_step. rewrite defaultdict_update_get.
    rewrite (String.eqb_sym d (key r)).
    destruct (String.eqb (key r) d) eqn:E; simpl.
    + apply String.eqb_eq in E. subst d.
      destruct (dict_get (key r) acc); reflexivity.
    + reflexivity.
Qed.

End Grouping.

Lemma dict_get_In :
  forall {V : Type} (d : dict V) k v,
    NoDup (map fst d) -> In (k, v) d -> dict_get k d = Some v.
Proof.
  induction d as [|[k0 v0] d IH]; intros k v Hnd Hin; [contradiction|].
  simpl. inversion Hnd as [|? ? Hnotin Hnd']; subst.
  destruct Hin as [Heq|Hin].
  - injection Heq as -> ->. rewrite String.eqb_refl. reflexivity.
  - destruct (String.eqb k k0) eqn:E.
    + apply String.eqb_eq in E. subst k0. exfalso. apply Hnotin.
      apply (in_map fst) in Hin. assumption.
    + apply IH; assumption.
Qed.

Lemma filter_not_mem_nil :
  forall l, filter (fun d => negb (mem d [])) l = l.
Proof.
  induction l as [|x l IH]; [reflexivity|].
  cbn [filter]. unfold mem at 1. cbn [existsb negb]. f_equal. exact IH.
Qed.

Lemma company_hierarchy_keys :
  forall rows,
    map fst (company_hierarchy rows)
    = first_occurrences (map department rows).
Proof.
  intros rows. unfold company_hierarchy.
  etransitivity;
    [exact (group_keys department [] (fun row => set_add (team row)) rows [])|].
  apply filter_not_mem_nil.
Qed.

Lemma salaries_by_department_keys :
  forall rows,
    map fst (salaries_by_department rows)
    = first_occurrences (map department rows).
Proof.
  intros rows. unfold salaries_by_department.
  etransitivity;
    [exact (group_keys department [] (fun row l => l ++ [salary row]) rows [])|].
  apply filter_not_mem_nil.
Qed.

Lemma fold_left_snoc_salaries :
  forall rs l,
    fold_left (fun (v : list Z) (r : Employee) => (v ++ [salary r])%list) rs l
    = (l ++ map salary rs)%list.
Proof.
  induction rs as [|r rs IH]; intros l; simpl.
  - symmetry. apply app_nil_r.
  - rewrite IH, <- app_assoc. reflexivity.
Qed.

Lemma salaries_by_department_get :
  forall rows d,
    dict_get d (salaries_by_department rows)
    = match records_of d rows with
      | [] => None
      | _ => Some (salaries_of d rows)
      end.
Proof.
  intros rows d. unfold salaries_by_department.
  etransitivity;
    [exact (group_get department [] (fun row l => l ++ [salary row]) rows [] d)|].
  cbn [dict_get]. unfold salaries_of, records_of.
  destruct (filter _ rows) as [|r rs] eqn:E; [reflexivity|].
  rewrite fold_left_snoc_salaries. reflexivity.
Qed.

(** Every entry of the intermediate dict holds the salaries of the records
    of its department, of which there is at least one. *)
Lemma salaries_by_department_In :
  forall rows d sal,
    In (d, sal) (salaries_by_department rows) ->
    sal = salaries_of d rows /\ records_of d rows <> [].
Proof.
  intros rows d sal Hin.
  assert (Hget : dict_get d (salaries_by_department rows) = Some sal).
  { apply dict_get_In; [|assumption].
    rewrite salaries_by_department_keys. apply first_occurrences_NoDup. }
  rewrite salaries_by_department_get in Hget.
  destruct (records_of d rows); [discriminate|].
  injection Hget as <-. split; [reflexivity|discriminate].
Qed.

(** ** Lemmas on floats and integer true division *)

Lemma shl_nonneg_exp : forall n k, 0 <= k -> shl n k = n * 2 ^ k.
Proof. intros n k H. unfold shl. rewrite Z.max_r by lia. reflexivity. Qed.

Lemma shl_nonpos_exp : forall n k, k <= 0 -> shl n k = n.
Proof. intros n k H. unfold shl. rewrite Z.max_l by lia. simpl. lia. Qed.

Lemma shl_opp : forall n k, shl (- n) k = - shl n k.
Proof. intros. unfold shl. lia. Qed.

Lemma shl_pos : forall n k, 0 < n -> 0 < shl n k.
Proof.
  intros n k H. unfold shl. apply Z.mul_pos_pos; [assumption|].
  apply Z.pow_pos_nonneg; lia.
Qed.

Ltac rhe_cases n d :=
  unfold round_half_even;
  pose proof (Z.div_mod n d) as Hdm;
  pose proof (Z.mod_pos_bound n d) as Hmb;
  destruct (Z.compare_spec (2 * (n mod d)) d);
  try destruct (Z.even (n / d)).

Lemma round_half_even_lower :
  forall n d k, 0 < d -> k * d <= n -> k <= round_half_even n d.
Proof. intros n d k Hd Hk. rhe_cases n d; nia. Qed.

Lemma round_half_even_upper :
  forall n d k, 0 < d -> n <= k * d -> round_half_even n d <= k.
Proof. intros n d k Hd Hk. rhe_cases n d; nia. Qed.

Lemma round_half_even_error :
  forall n d, 0 < d -> 2 * Z.abs (round_half_even n d * d - n) <= d.
Proof. intros n d Hd. rhe_cases n d; nia. Qed.

Lemma floor_log2_ratio_spec :
  forall a b, 0 < a -> 0 < b ->
    let e := floor_log2_ratio a b in
    shl b e <= shl a (- e) /\ shl a (- e) < 2 * shl b e.
Proof.
  intros a b Ha Hb. unfold floor_log2_ratio.
  pose proof (Z.log2_spec a Ha) as [La Ua].
  pose proof (Z.log2_spec b Hb) as [Lb Ub].
  pose proof (Z.log2_nonneg a) as Na. pose proof (Z.log2_nonneg b) as Nb.
  rewrite Z.pow_succ_r in Ua, Ub by assumption.
  set (la := Z.log2 a) in *. set (lb := Z.log2 b) in *.
  assert (Pa : 0 < 2 ^ la) by (apply Z.pow_pos_nonneg; lia).
  assert (Pb : 0 < 2 ^ lb) by (apply Z.pow_pos_nonneg; lia).
  destruct (Z_le_gt_dec 0 (la - lb)) as [Hd|Hd].
  - assert (E : 2 ^ la = 2 ^ (la - lb) * 2 ^ lb)
      by (rewrite <- Z.pow_add_r by lia; f_equal; lia).
    assert (Pd : 0 < 2 ^ (la - lb)) by (apply Z.pow_pos_nonneg; lia).
    rewrite (shl_nonpos_exp a (- (la - lb))) by lia.
    rewrite (shl_nonneg_exp b (la - lb)) by lia.
    destruct (Z.ltb_spec a (b * 2 ^ (la - lb))) as [Ht|Ht]; cbv zeta.
    + destruct (Z.eq_dec (la - lb) 0) as [Hz|Hz].
      * assert (Hl : la = lb) by lia.
        replace (la - lb - 1) with (-1) by lia.
        rewrite (shl_nonpos_exp b) by lia.
        rewrite (shl_nonneg_exp a) by lia.
        rewrite Hz in Ht. change (2 ^ 0) with 1 in Ht.
        change (2 ^ (- -1)) with 2. rewrite Hl in *. lia.
      * assert (E' : 2 ^ (la - lb) = 2 * 2 ^ (la - lb - 1))
          by (rewrite <- Z.pow_succ_r by lia; f_equal; lia).
        assert (Pd' : 0 < 2 ^ (la - lb - 1)) by (apply Z.pow_pos_nonneg; lia).
        rewrite (shl_nonneg_exp b) by lia.
        rewrite (shl_nonpos_exp a) by lia. nia.
    + rewrite (shl_nonpos_exp a (- (la - lb))) by lia.
      rewrite (shl_nonneg_exp b (la - lb)) by lia. nia.
  - assert (E : 2 ^ lb = 2 ^ (- (la - lb)) * 2 ^ la)
      by (rewrite <- Z.pow_add_r by lia; f_equal; lia).
    assert (Pd : 0 < 2 ^ (- (la - lb))) by (apply Z.pow_pos_nonneg; lia).
    rewrite (shl_nonneg_exp a (- (la - lb))) by lia.
    rewrite (shl_nonpos_exp b (la - lb)) by lia.
    destruct (Z.ltb_spec (a * 2 ^ (- (la - lb))) b) as [Ht|Ht]; cbv zeta.
    + rewrite (shl_nonpos_exp b) by lia.
      rewrite (shl_nonneg_exp a) by lia.
      replace (- (la - lb - 1)) with (Z.succ (- (la - lb))) by lia.
      rewrite Z.pow_succ_r by lia. nia.
    + rewrite (shl_nonneg_exp a (- (la - lb))) by lia.
      rewrite (shl_nonpos_exp b (la - lb)) by lia. nia.
Qed.

Lemma floor_log2_ratio_le :
  forall a b k, 0 < a -> 0 < b -> 0 <= k -> a < 2 ^ (k + 1) * b ->
                floor_log2_ratio a b <= k.
Proof.
  intros a b k Ha Hb Hk Hlt.
  destruct (floor_log2_ratio_spec a b Ha Hb) as [Hlo _].
  set (e := floor_log2_ratio a b) in *.
  destruct (Z_le_gt_dec e k) as [|Hgt]; [assumption|exfalso].
  rewrite (shl_nonneg_exp b e) in Hlo by lia.
  rewrite (shl_nonpos_exp a (- e)) in Hlo by lia.
  assert (2 ^ (k + 1) <= 2 ^ e) by (apply Z.pow_le_mono_r; lia).
  nia.
Qed.

Lemma nearest_binary64_raw :
  forall a b,
    nearest_binary64 a b
    = let m := raw_significand a b in
      let s := raw_exponent a b in
      if m =? 0 then (0, 0)
      else if m =? 2 ^ 53 then (2 ^ 52, s + 1)
      else (m, s).
Proof. reflexivity. Qed.

Lemma scaled_upper :
  forall a b, 0 < a -> 0 < b ->
    let s := raw_exponent a b in shl a (- s) < 2 ^ 53 * shl b s.
Proof.
  intros a b Ha Hb. unfold raw_exponent.
  destruct (floor_log2_ratio_spec a b Ha Hb) as [_ Hhi].
  set (e := floor_log2_ratio a b) in *.
  destruct (Z.max_spec (e - 52) (-1074)) as [[Hc ->]|[Hc ->]].
  - (* s = -1074, e < -1022 *)
    rewrite (shl_nonneg_exp a (- e)), (shl_nonpos_exp b e) in Hhi by lia.
    rewrite (shl_nonneg_exp a), (shl_nonpos_exp b) by lia.
    destruct (Z_le_gt_dec 0 (1074 + e)) as [Hk|Hk].
    + assert (E : 2 ^ (- -1074) = 2 ^ (- e) * 2 ^ (1074 + e))
        by (rewrite <- Z.pow_add_r by lia; f_equal; lia).
      assert (P : 0 < 2 ^ (1074 + e)) by (apply Z.pow_pos_nonneg; lia).
      assert (Q : 2 ^ (1074 + e) <= 2 ^ 52) by (apply Z.pow_le_mono_r; lia).
      rewrite E, Z.mul_assoc.
      apply Z.lt_le_trans with (2 * b * 2 ^ (1074 + e)).
      * apply Z.mul_lt_mono_pos_r; assumption.
      * change (2 ^ 53) with (2 * 2 ^ 52). nia.
    + assert (E : 2 ^ (- e) = 2 ^ (- -1074) * 2 ^ (- e - 1074))
        by (rewrite <- Z.pow_add_r by lia; f_equal; lia).
      assert (Q : 2 ^ 1 <= 2 ^ (- e - 1074)) by (apply Z.pow_le_mono_r; lia).
      assert (P : 0 < 2 ^ (- -1074)) by (apply Z.pow_pos_nonneg; lia).
      rewrite E in Hhi. change (2 ^ 1) with 2 in Q.
      assert (0 < 2 ^ 53) by (apply Z.pow_pos_nonneg; lia).
      set (x := 2 ^ (- -1074)) in *. set (y := 2 ^ (- e - 1074)) in *.
      set (z := 2 ^ 53) in *.
      assert (a * x * 2 <= a * x * y) by nia.
      nia.
  - destruct (Z_le_gt_dec 0 (e - 52)) as [Hs|Hs].
    + rewrite (shl_nonneg_exp b e), (shl_nonpos_exp a (- e)) in Hhi by lia.
      rewrite (shl_nonneg_exp b), (shl_nonpos_exp a) by lia.
      assert (E : 2 ^ e = 2 ^ (e - 52) * 2 ^ 52)
        by (rewrite <- Z.pow_add_r by lia; f_equal; lia).
      assert (P : 0 < 2 ^ (e - 52)) by (apply Z.pow_pos_nonneg; lia).
      rewrite E in Hhi. nia.
    + rewrite (shl_nonneg_exp a (- (e - 52))), (shl_nonpos_exp b (e - 52))
        by lia.
      destruct (Z_le_gt_dec 0 e) as [He|He].
      * rewrite (shl_nonneg_exp b e), (shl_nonpos_exp a (- e)) in Hhi by lia.
        assert (E : 2 ^ 52 = 2 ^ e * 2 ^ (- (e - 52)))
          by (rewrite <- Z.pow_add_r by lia; f_equal; lia).
        assert (P : 0 < 2 ^ (- (e - 52))) by (apply Z.pow_pos_nonneg; lia).
        assert (P' : 0 < 2 ^ e) by (apply Z.pow_pos_nonneg; lia).
        change (2 ^ 53) with (2 * 2 ^ 52). rewrite E. nia.
      * rewrite (shl_nonneg_exp a (- e)), (shl_nonpos_exp b e) in Hhi by lia.
        assert (E : 2 ^ (- (e - 52)) = 2 ^ (- e) * 2 ^ 52)
          by (rewrite <- Z.pow_add_r by lia; f_equal; lia).
        rewrite E. change (2 ^ 53) with (2 * 2 ^ 52). nia.
Qed.

Lemma scaled_lower :
  forall a b, 0 < a -> 0 < b ->
    let s := raw_exponent a b in
    s = floor_log2_ratio a b - 52 -> 2 ^ 52 * shl b s <= shl a (- s).
Proof.
  intros a b Ha Hb s Hs. subst s. rewrite Hs.
  destruct (floor_log2_ratio_spec a b Ha Hb) as [Hlo _].
  set (e := floor_log2_ratio a b) in *.
  destruct (Z_le_gt_dec 0 (e - 52)) as [Hc|Hc].
  - rewrite (shl_nonneg_exp b e), (shl_nonpos_exp a (- e)) in Hlo by lia.
    rewrite (shl_nonneg_exp b), (shl_nonpos_exp a) by lia.
    assert (E : 2 ^ e = 2 ^ (e - 52) * 2 ^ 52)
      by (rewrite <- Z.pow_add_r by lia; f_equal; lia).
    rewrite E in Hlo. nia.
  - rewrite (shl_nonneg_exp a (- (e - 52))), (shl_nonpos_exp b (e - 52))
      by lia.
    destruct (Z_le_gt_dec 0 e) as [He|He].
    + rewrite (shl_nonneg_exp b e), (shl_nonpos_exp a (- e)) in Hlo by lia.
      assert (E : 2 ^ 52 = 2 ^ e * 2 ^ (- (e - 52)))
        by (rewrite <- Z.pow_add_r by lia; f_equal; lia).
      assert (P : 0 < 2 ^ (- (e - 52))) by (apply Z.pow_pos_nonneg; lia).
      rewrite E. nia.
    + rewrite (shl_nonneg_exp a (- e)), (shl_nonpos_exp b e) in Hlo by lia.
      assert (E : 2 ^ (- (e - 52)) = 2 ^ (- e) * 2 ^ 52)
        by (rewrite <- Z.pow_add_r by lia; f_equal; lia).
      rewrite E. nia.
Qed.

Lemma raw_exponent_cases :
  forall a b,
    let s := raw_exponent a b in
    -1074 <= s /\ (s = floor_log2_ratio a b - 52 \/ s = -1074).
Proof. intros a b. unfold raw_exponent. lia. Qed.

Lemma raw_significand_range :
  forall a b, 0 < a -> 0 < b ->
    let m := raw_significand a b in
    0 <= m <= 2 ^ 53
    /\ (raw_exponent a b = floor_log2_ratio a b - 52 -> 2 ^ 52 <= m).
Proof.
  intros a b Ha Hb. unfold raw_significand.
  pose proof (scaled_upper a b Ha Hb) as Hu.
  pose proof (scaled_lower a b Ha Hb) as Hl.
  cbv zeta in *. set (s := raw_exponent a b) in *.
  assert (Hd : 0 < shl b s) by (apply shl_pos; assumption).
  assert (Hn : 0 < shl a (- s)) by (apply shl_pos; assumption).
  repeat split.
  - apply round_half_even_lower; lia.
  - apply round_half_even_upper; lia.
  - intros Hs. apply round_half_even_lower; [assumption|]. apply Hl, Hs.
Qed.

(** The float nearest to a ratio is canonical. *)
Lemma nearest_binary64_canonical :
  forall a b m s, 0 < a -> 0 < b -> nearest_binary64 a b = (m, s) ->
    (m = 0 /\ s = 0)
    \/ (0 < m < 2 ^ 52 /\ s = -1074)
    \/ (2 ^ 52 <= m < 2 ^ 53 /\ -1074 <= s).
Proof.
  intros a b m s Ha Hb H. rewrite nearest_binary64_raw in H. cbv zeta in H.
  destruct (raw_significand_range a b Ha Hb) as [[H0 H1] H2].
  destruct (raw_exponent_cases a b) as [H3 H4]. cbv zeta in *.
  destruct (Z.eqb_spec (raw_significand a b) 0) as [E0|E0].
  - injection H as <- <-. left. split; reflexivity.
  - destruct (Z.eqb_spec (raw_significand a b) (2 ^ 53)) as [E1|E1];
      injection H as <- <-.
    + right. right. lia.
    + right. destruct H4 as [H4|H4].
      * right. specialize (H2 H4). lia.
      * destruct (Z_lt_le_dec (raw_significand a b) (2 ^ 52)); [left|right];
          lia.
Qed.

(** The float nearest to a ratio is within half a unit in the last place. *)
Lemma nearest_binary64_error :
  forall a b m s, 0 < a -> 0 < b -> nearest_binary64 a b = (m, s) ->
    2 * Z.abs (m * shl b s - shl a (- s)) <= shl b s.
Proof.
  intros a b m s Ha Hb H. rewrite nearest_binary64_raw in H. cbv zeta in H.
  destruct (raw_significand_range a b Ha Hb) as [[H0 H1] H2].
  destruct (raw_exponent_cases a b) as [H3 H4]. cbv zeta in *.
  assert (Herr := round_half_even_error
                    (shl a (- raw_exponent a b)) (shl b (raw_exponent a b))
                    (shl_pos b _ Hb)).
  fold (raw_significand a b) in Herr.
  set (m0 := raw_significand a b) in *. set (s0 := raw_exponent a b) in *.
  destruct (Z.eqb_spec m0 0) as [E0|E0].
  - injection H as <- <-.
    destruct H4 as [H4|H4]; [specialize (H2 H4); lia|].
    rewrite H4 in Herr.
    rewrite (shl_nonneg_exp a), (shl_nonpos_exp b) in Herr by lia.
    rewrite !shl_nonpos_exp by lia.
    assert (1 <= 2 ^ (- -1074)) by (change 1 with (2 ^ 0);
                                    apply Z.pow_le_mono_r; lia).
    nia.
  - destruct (Z.eqb_spec m0 (2 ^ 53)) as [E1|E1]; injection H as <- <-;
      [|exact Herr].
    rewrite E1 in Herr. change (2 ^ 53) with (2 * 2 ^ 52) in Herr.
    destruct (Z_le_gt_dec 0 s0) as [Hs|Hs].
    + rewrite (shl_nonneg_exp b s0), (shl_nonpos_exp a (- s0)) in Herr by lia.
      rewrite (shl_nonneg_exp b (s0 + 1)), (shl_nonpos_exp a) by lia.
      replace (s0 + 1) with (Z.succ s0) by lia.
      rewrite Z.pow_succ_r by lia.
      assert (0 < 2 ^ s0) by (apply Z.pow_pos_nonneg; lia). nia.
    + rewrite (shl_nonneg_exp a (- s0)), (shl_nonpos_exp b s0) in Herr by lia.
      rewrite (shl_nonneg_exp a), (shl_nonpos_exp b) by lia.
      replace (- s0) with (Z.succ (- (s0 + 1))) in Herr by lia.
      rewrite Z.pow_succ_r in Herr by lia. nia.
Qed.

(** A ratio between two integers of magnitude at most [2^53] is rounded
    to a float between them. *)
Lemma nearest_binary64_between :
  forall a b lo hi m s,
    0 < a -> 0 < b -> lo * b <= a -> a <= hi * b -> hi <= 2 ^ 53 ->
    nearest_binary64 a b = (m, s) ->
    s <= 1 /\ 0 <= m /\ shl lo (- s) <= shl m s /\ shl m s <= shl hi (- s).
Proof.
  intros a b lo hi m s Ha Hb Hlo Hhi Hbound H.
  rewrite nearest_binary64_raw in H. cbv zeta in H.
  assert (He : floor_log2_ratio a b <= 53).
  { apply floor_log2_ratio_le; try lia. change (2 ^ (53 + 1)) with (2 * 2 ^ 53).
    nia. }
  destruct (floor_log2_ratio_spec a b Ha Hb) as [Hl _].
  destruct (raw_significand_range a b Ha Hb) as [[H0 H1] _].
  unfold raw_significand, raw_exponent in *.
  set (e := floor_log2_ratio a b) in *.
  set (s0 := Z.max (e - 52) (-1074)) in *.
  assert (Hs0 : -1074 <= s0 <= 1) by (unfold s0; lia).
  assert (Hhipos : 0 < hi) by nia.
  destruct (Z_le_gt_dec s0 0) as [Hs|Hs].
  - assert (P : 0 < 2 ^ (- s0)) by (apply Z.pow_pos_nonneg; lia).
    assert (L : lo * 2 ^ (- s0) <= round_half_even (shl a (- s0)) (shl b s0)).
    { apply round_half_even_lower; [apply shl_pos; assumption|].
      rewrite (shl_nonneg_exp a), (shl_nonpos_exp b) by lia. nia. }
    assert (U : round_half_even (shl a (- s0)) (shl b s0) <= hi * 2 ^ (- s0)).
    { apply round_half_even_upper; [apply shl_pos; assumption|].
      rewrite (shl_nonneg_exp a), (shl_nonpos_exp b) by lia. nia. }
    set (m0 := round_half_even (shl a (- s0)) (shl b s0)) in *.
    destruct (Z.eqb_spec m0 0) as [E0|E0].
    + injection H as <- <-. rewrite !shl_nonpos_exp by lia. nia.
    + destruct (Z.eqb_spec m0 (2 ^ 53)) as [E1|E1]; injection H as <- <-.
      * destruct (Z.eq_dec s0 0) as [Hz|Hz].
        -- rewrite Hz in *. change (2 ^ (- 0)) with 1 in *.
           rewrite (shl_nonpos_exp lo), (shl_nonpos_exp hi) by lia.
           rewrite shl_nonneg_exp by lia.
           change (2 ^ 52 * 2 ^ (0 + 1)) with (2 ^ 53). lia.
        -- rewrite (shl_nonneg_exp lo), (shl_nonneg_exp hi) by lia.
           rewrite shl_nonpos_exp by lia.
           replace (- s0) with (Z.succ (- (s0 + 1))) in L, U by lia.
           rewrite Z.pow_succ_r in L, U by lia.
           change (2 ^ 53) with (2 * 2 ^ 52) in E1. lia.
      * rewrite (shl_nonneg_exp lo), (shl_nonneg_exp hi) by lia.
        rewrite shl_nonpos_exp by lia. lia.
  - assert (Hs1 : s0 = 1) by lia. assert (He53 : e = 53) by (unfold s0 in *; lia).
    rewrite He53 in Hl.
    rewrite (shl_nonneg_exp b), (shl_nonpos_exp a) in Hl by lia.
    assert (Ea : a = 2 ^ 53 * b) by nia.
    assert (Eh : hi = 2 ^ 53) by nia.
    assert (Em : round_half_even (shl a (- s0)) (shl b s0) = 2 ^ 52).
    { rewrite Hs1. rewrite (shl_nonneg_exp b), (shl_nonpos_exp a) by lia.
      change (2 ^ 1) with 2. apply Z.le_antisymm.
      - apply round_half_even_upper; [lia|]. rewrite Ea.
        change (2 ^ 53) with (2 * 2 ^ 52). lia.
      - apply round_half_even_lower; [lia|]. rewrite Ea.
        change (2 ^ 53) with (2 * 2 ^ 52). lia. }
    rewrite Em in H. change (2 ^ 52 =? 0) with false in H.
    change (2 ^ 52 =? 2 ^ 53) with false in H. injection H as <- <-.
    rewrite Hs1. rewrite (shl_nonpos_exp lo), (shl_nonpos_exp hi) by lia.
    rewrite shl_nonneg_exp by lia. change (2 ^ 52 * 2 ^ 1) with (2 ^ 53).
    rewrite Eh. assert (lo <= 2 ^ 53) by nia. lia.
Qed.

(** A ratio below [2^1023] does not overflow. *)
Lemma nearest_binary64_in_range :
  forall a b m s,
    0 < a -> 0 < b -> a < 2 ^ 1023 * b -> nearest_binary64 a b = (m, s) ->
    s <= max_exponent.
Proof.
  intros a b m s Ha Hb Hlt H. rewrite nearest_binary64_raw in H.
  cbv zeta in H.
  assert (He : floor_log2_ratio a b <= 1022)
    by (apply floor_log2_ratio_le; try lia; exact Hlt).
  unfold raw_exponent in H. unfold max_exponent.
  destruct (_ =? 0); [injection H as <- <-; lia|].
  destruct (_ =? 2 ^ 53); injection H as <- <-; lia.
Qed.

(** *** Integer true division *)

Lemma int_true_divide_cases :
  forall a b, b <> 0 ->
    (exists x, int_true_divide a b = Ok x)
    \/ int_true_divide a b = Raise OverflowError.
Proof.
  intros a b Hb. unfold int_true_divide.
  destruct (Z.eqb_spec b 0); [contradiction|].
  destruct (a =? 0); [left; eexists; reflexivity|].
  destruct (nearest_binary64 (Z.abs a) (Z.abs b)) as [m s].
  destruct (max_exponent <? s); [right|left; eexists]; reflexivity.
Qed.

Lemma int_true_divide_returns :
  forall a n, 0 < n -> Z.abs a < 2 ^ 1023 * n ->
    exists x, int_true_divide a n = Ok x.
Proof.
  intros a n Hn Ha. unfold int_true_divide.
  destruct (Z.eqb_spec n 0); [lia|].
  destruct (Z.eqb_spec a 0); [eexists; reflexivity|].
  destruct (nearest_binary64 (Z.abs a) (Z.abs n)) as [m s] eqn:E.
  apply nearest_binary64_in_range in E; try lia.
  destruct (Z.ltb_spec max_exponent s); [lia|]. eexists; reflexivity.
Qed.

(** The quotient of [a] by [n] lies between two ints that bound it, when
    these have magnitude at most [2^53]. *)
Lemma int_true_divide_between :
  forall a n lo hi,
    0 < n -> lo * n <= a -> a <= hi * n ->
    - 2 ^ 53 <= lo -> hi <= 2 ^ 53 ->
    exists x, int_true_divide a n = Ok x
              /\ int_le_float lo x = true /\ float_le_int x hi = true.
Proof.
  intros a n lo hi Hn Hlo Hhi Blo Bhi. unfold int_true_divide.
  destruct (Z.eqb_spec n 0); [lia|].
  destruct (Z.ltb_spec n 0); [lia|]. rewrite xorb_false_r.
  rewrite (Z.abs_eq n) by lia.
  destruct (Z.eqb_spec a 0) as [Ea|Ea].
  - subst a. eexists. split; [reflexivity|].
    unfold int_le_float, float_le_int. destruct (0 <? 0); simpl;
      rewrite !shl_nonpos_exp by lia; split; apply Z.leb_le; nia.
  - destruct (Z.ltb_spec a 0) as [Hneg|Hpos].
    + destruct (nearest_binary64 (Z.abs a) n) as [m s] eqn:E.
      destruct (nearest_binary64_between (Z.abs a) n (- hi) (- lo) m s)
        as (Hs & Hm & L & U); try lia; try assumption.
      destruct (Z.ltb_spec max_exponent s); [unfold max_exponent in *; lia|].
      eexists. split; [reflexivity|].
      unfold int_le_float, float_le_int, signed.
      rewrite shl_opp in L, U. rewrite !shl_opp.
      split; apply Z.leb_le; lia.
    + destruct (nearest_binary64 (Z.abs a) n) as [m s] eqn:E.
      destruct (nearest_binary64_between (Z.abs a) n lo hi m s)
        as (Hs & Hm & L & U); try lia; try assumption.
      destruct (Z.ltb_spec max_exponent s); [unfold max_exponent in *; lia|].
      eexists. split; [reflexivity|].
      unfold int_le_float, float_le_int, signed.
      split; apply Z.leb_le; lia.
Qed.

Lemma int_true_divide_nearest :
  forall a n x, 0 < n -> int_true_divide a n = Ok x -> nearest_to x a n.
Proof.
  intros a n x Hn H. unfold int_true_divide in H.
  destruct (Z.eqb_spec n 0); [lia|].
  destruct (Z.ltb_spec n 0); [lia|]. rewrite xorb_false_r in H.
  rewrite (Z.abs_eq n) in H by lia.
  destruct (Z.eqb_spec a 0) as [Ea|Ea].
  - injection H as <-. subst a. simpl. repeat split; [left; split; reflexivity|].
    rewrite !shl_nonpos_exp by lia. simpl. lia.
  - destruct (nearest_binary64 (Z.abs a) n) as [m s] eqn:E.
    destruct (Z.ltb_spec max_exponent s); [discriminate|].
    injection H as <-. simpl.
    assert (Ha : 0 < Z.abs a) by lia.
    pose proof (nearest_binary64_canonical _ _ _ _ Ha Hn E) as Hc.
    pose proof (nearest_binary64_error _ _ _ _ Ha Hn E) as He.
    repeat split; [|exact He].
    destruct Hc as [Hc|[Hc|Hc]]; [left|right; left|right; right]; lia.
Qed.

(** *** min, max and sum *)

Lemma fold_min_spec :
  forall l x, In (fold_left Z.min l x) (x :: l)
              /\ forall y, In y (x :: l) -> fold_left Z.min l x <= y.
Proof.
  induction l as [|z l IH]; intros x; simpl.
  - split; [left; reflexivity|]. intros y [<-|[]]. lia.
  - destruct (IH (Z.min x z)) as [Hin Hle]. split.
    + destruct Hin as [Hin|Hin]; [|right; right; assumption].
      rewrite <- Hin. destruct (Z.min_spec x z) as [[_ ->]|[_ ->]]; auto.
    + intros y Hy. assert (fold_left Z.min l (Z.min x z) <= Z.min x z)
        by (apply Hle; left; reflexivity).
      destruct Hy as [<-|[<-|Hy]]; [lia|lia|]. apply Hle. right. assumption.
Qed.

Lemma fold_max_spec :
  forall l x, In (fold_left Z.max l x) (x :: l)
              /\ forall y, In y (x :: l) -> y <= fold_left Z.max l x.
Proof.
  induction l as [|z l IH]; intros x; simpl.
  - split; [left; reflexivity|]. intros y [<-|[]]. lia.
  - destruct (IH (Z.max x z)) as [Hin Hle]. split.
    + destruct Hin as [Hin|Hin]; [|right; right; assumption].
      rewrite <- Hin. destruct (Z.max_spec x z) as [[_ ->]|[_ ->]]; auto.
    + intros y Hy. assert (Z.max x z <= fold_left Z.max l (Z.max x z))
        by (apply Hle; left; reflexivity).
      destruct Hy as [<-|[<-|Hy]]; [lia|lia|]. apply Hle. right. assumption.
Qed.

Lemma py_min_spec :
  forall l lo, py_min l = Ok lo -> In lo l /\ forall y, In y l -> lo <= y.
Proof.
  intros [|x l] lo H; [discriminate|]. injection H as <-.
  apply fold_min_spec.
Qed.

Lemma py_max_spec :
  forall l hi, py_max l = Ok hi -> In hi l /\ forall y, In y l -> y <= hi.
Proof.
  intros [|x l] hi H; [discriminate|]. injection H as <-.
  apply fold_max_spec.
Qed.

Lemma fold_add_shift :
  forall l x, fold_left Z.add l x = x + fold_left Z.add l 0.
Proof.
  induction l as [|z l IH]; intros x; simpl; [lia|].
  rewrite (IH (x + z)), (IH z). lia.
Qed.

Lemma py_sum_cons : forall x l, py_sum (x :: l) = x + py_sum l.
Proof. intros. unfold py_sum. simpl. apply fold_add_shift. Qed.

Lemma py_len_cons :
  forall {A : Type} (x : A) l, py_len (x :: l) = 1 + py_len l.
Proof. intros. unfold py_len. simpl List.length. lia. Qed.

Lemma py_sum_bounds :
  forall l lo hi, (forall y, In y l -> lo <= y <= hi) ->
                  lo * py_len l <= py_sum l <= hi * py_len l.
Proof.
  induction l as [|x l IH]; intros lo hi H.
  - unfold py_sum, py_len. simpl. lia.
  - rewrite py_sum_cons, py_len_cons.
    specialize (IH lo hi (fun y Hy => H y (or_intror Hy))).
    specialize (H x (or_introl eq_refl)). lia.
Qed.

(** ** Lemmas on the loader *)

Lemma DictReader_table :
  forall content, DictReader (reader DELIMITER content) = table_of content.
Proof.
  intros content. unfold table_of, header_of, data_rows_of.
  destruct (reader DELIMITER content); reflexivity.
Qed.

Lemma dict_set_get :
  forall {V : Type} k k' (v : V) d,
    dict_get k (dict_set k' v d)
    = if String.eqb k k' then Some v else dict_get k d.
Proof.
  intros V k k' v. induction d as [|[k0 v0] d IH]; simpl.
  - reflexivity.
  - destruct (String.eqb k' k0) eqn:E; simpl.
    + apply String.eqb_eq in E. subst k0.
      destruct (String.eqb k k'); reflexivity.
    + rewrite IH. destruct (String.eqb k k') eqn:E'; [|reflexivity].
      apply String.eqb_eq in E'. subst k'. rewrite E. reflexivity.
Qed.

Lemma fold_dict_set_None :
  forall {X V : Type} (kf : X -> string) (vf : X -> V) l d k,
    dict_get k (fold_left (fun d x => dict_set (kf x) (vf x) d) l d) = None
    <-> dict_get k d = None /\ ~ In k (map kf l).
Proof.
  intros X V kf vf. induction l as [|x l IH]; intros d k; simpl.
  - tauto.
  - rewrite IH, dict_set_get. destruct (String.eqb k (kf x)) eqn:E.
    + apply String.eqb_eq in E. subst k. split.
      * intros [H _]. discriminate.
      * intros [_ H]. exfalso. apply H. left. reflexivity.
    + apply String.eqb_neq in E. split.
      * intros [H1 H2]. split; [assumption|]. intros [H|H]; auto.
      * intros [H1 H2]. split; [assumption|]. intros H. apply H2. auto.
Qed.

Lemma map_fst_combine :
  forall {A B : Type} (l : list A) (l' : list B),
    map fst (combine l l') = firstn (List.length l') l.
Proof.
  induction l as [|x l IH]; intros [|y l']; simpl; try reflexivity.
  - f_equal. apply IH.
Qed.

(** A row dict has exactly the names of the header as keys. *)
Lemma dictreader_row_get_None :
  forall header row k,
    dict_get k (dictreader_row header row) = None <-> ~ In k header.
Proof.
  intros header row k. unfold dictreader_row.
  pose proof (fold_dict_set_None (fun k : string => k)
                (fun _ : string => @None string)) as H1.
  pose proof (fold_dict_set_None fst
                (fun kv : string * string => Some (snd kv))) as H2.
  cbv beta in H1, H2. rewrite H1, H2.
  rewrite map_id, map_fst_combine. cbn [dict_get].
  rewrite <- (firstn_skipn (List.length row) header) at 3.
  rewrite in_app_iff. tauto.
Qed.

Lemma dictreader_row_item :
  forall header row k,
    In k header -> exists c, dict_item k (dictreader_row header row) = Ok c.
Proof.
  intros header row k H. unfold dict_item.
  destruct (dict_get k (dictreader_row header row)) as [c|] eqn:E.
  - exists c. reflexivity.
  - apply dictreader_row_get_None in E. contradiction.
Qed.

Lemma dictreader_row_missing :
  forall header row k,
    mem k header = false ->
    dict_item k (dictreader_row header row) = Raise (KeyError k).
Proof.
  intros header row k H. unfold dict_item.
  replace (dict_get k (dictreader_row header row)) with (@None cell);
    [reflexivity|].
  symmetry. apply dictreader_row_get_None. rewrite <- mem_In, H. discriminate.
Qed.

Lemma dictreader_row_present :
  forall header row k,
    mem k header = true ->
    exists c, dict_get k (dictreader_row header row) = Some c
              /\ dict_item k (dictreader_row header row) = Ok c.
Proof.
  intros header row k H. apply mem_In in H.
  destruct (dictreader_row_item header row k H) as [c Hc]. exists c.
  split; [|assumption]. unfold dict_item in Hc.
  destruct (dict_get k _); [injection Hc as ->; reflexivity|discriminate].
Qed.

Lemma py_str_Ok : forall c, exists s, py_str c = Ok s.
Proof. intros [s|]; eexists; reflexivity. Qed.

Lemma dict_item_Ok :
  forall {V : Type} k (d : dict V) v, dict_item k d = Ok v <-> dict_get k d = Some v.
Proof.
  intros V k d v. unfold dict_item. destruct (dict_get k d); split; congruence.
Qed.

Lemma parse_row_typed :
  forall d r, parse_row d = Ok r -> typed_record d r.
Proof.
  intros d r H. unfold parse_row in H. unfold typed_record.
  destruct (dict_item FULL_NAME_FIELD d) as [c1|] eqn:E1; [|discriminate].
  cbn [bind] in H.
  destruct (py_str c1) as [v1|] eqn:F1; [|discriminate]. cbn [bind] in H.
  destruct (dict_item DEPARTMENT_FIELD d) as [c2|] eqn:E2; [|discriminate].
  cbn [bind] in H.
  destruct (py_str c2) as [v2|] eqn:F2; [|discriminate]. cbn [bind] in H.
  destruct (dict_item TEAM_FIELD d) as [c3|] eqn:E3; [|discriminate].
  cbn [bind] in H.
  destruct (py_str c3) as [v3|] eqn:F3; [|discriminate]. cbn [bind] in H.
  destruct (dict_item RATING_FIELD d) as [c4|] eqn:E4; [|discriminate].
  cbn [bind] in H.
  destruct (py_float c4) as [v4|] eqn:F4; [|discriminate]. cbn [bind] in H.
  destruct (dict_item SALARY_FIELD d) as [c5|] eqn:E5; [|discriminate].
  cbn [bind] in H.
  destruct (py_int c5) as [v5|] eqn:F5; [|discriminate]. cbn [bind] in H.
  injection H as <-. cbn [full_name department team rating salary].
  apply dict_item_Ok in E1, E2, E3, E4, E5.
  repeat split; eexists; split; eassumption.
Qed.

Lemma typed_record_parse_row :
  forall d r, typed_record d r -> parse_row d = Ok r.
Proof.
  intros d [n dp t rt s] (H1 & H2 & H3 & H4 & H5).
  cbn [full_name department team rating salary] in *.
  destruct H1 as (c1 & E1 & F1), H2 as (c2 & E2 & F2),
    H3 as (c3 & E3 & F3), H4 as (c4 & E4 & F4), H5 as (c5 & E5 & F5).
  apply dict_item_Ok in E1, E2, E3, E4, E5. unfold parse_row.
  rewrite E1; cbn [bind]; rewrite F1; cbn [bind].
  rewrite E2; cbn [bind]; rewrite F2; cbn [bind].
  rewrite E3; cbn [bind]; rewrite F3; cbn [bind].
  rewrite E4; cbn [bind]; rewrite F4; cbn [bind].
  rewrite E5; cbn [bind]; rewrite F5; cbn [bind]. reflexivity.
Qed.

Lemma REQUIRED_FIELDS_cases :
  forall fld co,
    In (fld, co) REQUIRED_FIELDS ->
    (fld, co) = (FULL_NAME_FIELD, to_str)
    \/ (fld, co) = (DEPARTMENT_FIELD, to_str)
    \/ (fld, co) = (TEAM_FIELD, to_str)
    \/ (fld, co) = (RATING_FIELD, to_float)
    \/ (fld, co) = (SALARY_FIELD, to_int).
Proof.
  intros fld co H. unfold REQUIRED_FIELDS in H. cbn [In] in H.
  destruct H as [H|[H|[H|[H|[H|[]]]]]]; rewrite <- H; tauto.
Qed.

(** A row with a cell that fails its coercion is not parsed. *)
Lemma parse_row_fails :
  forall d fld co c,
    In (fld, co) REQUIRED_FIELDS -> dict_get fld d = Some c ->
    coercion_fails co c -> exists e, parse_row d = Raise e.
Proof.
  intros d fld co c Hin Hget Hfail.
  destruct (parse_row d) as [r|e] eqn:E; [exfalso|exists e; reflexivity].
  apply parse_row_typed in E. destruct E as (H1 & H2 & H3 & H4 & H5).
  destruct H1 as (c1 & E1 & F1), H2 as (c2 & E2 & F2),
    H3 as (c3 & E3 & F3), H4 as (c4 & E4 & F4), H5 as (c5 & E5 & F5).
  apply REQUIRED_FIELDS_cases in Hin.
  destruct Hin as [H|[H|[H|[H|H]]]]; injection H as -> ->;
    destruct Hfail as [e He]; congruence.
Qed.

(** A row whose cells all pass their coercions is parsed. *)
Lemma parse_row_succeeds :
  forall d,
    (forall fld, In fld (map fst REQUIRED_FIELDS) ->
                 exists c, dict_get fld d = Some c) ->
    (forall fld co c, In (fld, co) REQUIRED_FIELDS -> dict_get fld d = Some c ->
                      ~ coercion_fails co c) ->
    exists r, parse_row d = Ok r.
Proof.
  intros d Hkeys Hok.
  assert (K : forall fld co, In (fld, co) REQUIRED_FIELDS ->
                exists c, dict_get fld d = Some c /\ ~ coercion_fails co c).
  { intros fld co Hin. destruct (Hkeys fld) as [c Hc].
    - apply (in_map fst) in Hin. exact Hin.
    - exists c. split; [assumption|]. eapply Hok; eassumption. }
  destruct (K FULL_NAME_FIELD to_str) as (c1 & E1 & F1);
    [unfold REQUIRED_FIELDS; cbn [In]; tauto|].
  destruct (K DEPARTMENT_FIELD to_str) as (c2 & E2 & F2);
    [unfold REQUIRED_FIELDS; cbn [In]; tauto|].
  destruct (K TEAM_FIELD to_str) as (c3 & E3 & F3);
    [unfold REQUIRED_FIELDS; cbn [In]; tauto|].
  destruct (K RATING_FIELD to_float) as (c4 & E4 & F4);
    [unfold REQUIRED_FIELDS; cbn [In]; tauto|].
  destruct (K SALARY_FIELD to_int) as (c5 & E5 & F5);
    [unfold REQUIRED_FIELDS; cbn [In]; tauto|].
  cbn [coercion_fails] in *.
  destruct (py_str c1) as [v1|e] eqn:G1; [|exfalso; apply F1; eauto].
  destruct (py_str c2) as [v2|e] eqn:G2; [|exfalso; apply F2; eauto].
  destruct (py_str c3) as [v3|e] eqn:G3; [|exfalso; apply F3; eauto].
  destruct (py_float c4) as [v4|e] eqn:G4; [|exfalso; apply F4; eauto].
  destruct (py_int c5) as [v5|e] eqn:G5; [|exfalso; apply F5; eauto].
  exists (mkEmployee v1 v2 v3 v4 v5). apply typed_record_parse_row.
  unfold typed_record. cbn [full_name department team rating salary].
  repeat split; eexists; split; eassumption.
Qed.

(** ** Lemmas on the summary builder *)

Lemma summarize_Ok :
  forall d sal s,
    summarize (d, sal) = Ok s ->
    name s = d /\ headcount s = py_len sal
    /\ py_min sal = Ok (min_salary s) /\ py_max sal = Ok (max_salary s)
    /\ int_true_divide (py_sum sal) (py_len sal) = Ok (avg_salary s).
Proof.
  intros d sal s H. unfold summarize in H.
  destruct (py_min sal) as [lo|]; [|discriminate]. cbn [bind] in H.
  destruct (py_max sal) as [hi|]; [|discriminate]. cbn [bind] in H.
  destruct (int_true_divide (py_sum sal) (py_len sal)) as [avg|];
    [|discriminate].
  cbn [bind] in H. injection H as <-. cbn. repeat split; reflexivity.
Qed.

Lemma py_len_pos : forall {A : Type} (l : list A), l <> [] -> 0 < py_len l.
Proof. intros A [|x l] H; [contradiction|]. rewrite py_len_cons. unfold py_len. lia. Qed.

(** On a non-empty list of salaries the only possible failure is the
    overflow of the average. *)
Lemma summarize_cases :
  forall d sal, sal <> [] ->
    (exists s, summarize (d, sal) = Ok s)
    \/ summarize (d, sal) = Raise OverflowError.
Proof.
  intros d sal Hne. unfold summarize.
  destruct sal as [|x sal]; [contradiction|]. cbn [py_min py_max bind].
  destruct (int_true_divide_cases (py_sum (x :: sal)) (py_len (x :: sal)))
    as [[avg ->]| ->].
  - pose proof (py_len_pos (x :: sal) Hne). lia.
  - left. eexists. reflexivity.
  - right. reflexivity.
Qed.

Lemma salaries_of_nonempty :
  forall d rows, records_of d rows <> [] -> salaries_of d rows <> [].
Proof.
  intros d rows H. unfold salaries_of. destruct (records_of d rows);
    [contradiction|discriminate].
Qed.

Lemma Forall2_In_r :
  forall {A B : Type} (R : A -> B -> Prop) l l' y,
    Forall2 R l l' -> In y l' -> exists x, In x l /\ R x y.
Proof.
  intros A B R l l' y H. induction H as [|x y' l l' Hxy H IH]; intros Hin.
  - contradiction.
  - destruct Hin as [<-|Hin].
    + exists x. split; [left; reflexivity|assumption].
    + destruct (IH Hin) as (x' & Hx' & HR). exists x'. split; [right|]; assumption.
Qed.

(** Every summary returned is the summary of the salaries of its
    department, which has at least one record. *)
Lemma build_department_summaries_In :
  forall rows summaries s,
    build_department_summaries rows = Ok summaries -> In s summaries ->
    records_of (name s) rows <> []
    /\ summarize (name s, salaries_of (name s) rows) = Ok s.
Proof.
  intros rows summaries s H Hin. unfold build_department_summaries in H.
  apply comprehension_Ok in H.
  destruct (Forall2_In_r _ _ _ _ H Hin) as ([d sal] & Hitem & Hs).
  destruct (summarize_Ok _ _ _ Hs) as (Hname & _).
  destruct (salaries_by_department_In _ _ _ Hitem) as [-> Hne].
  subst d. split; assumption.
Qed.

Lemma Forall2_map_eq :
  forall {A B C : Type} (f : A -> C) (g : B -> C) (R : A -> B -> Prop) l l',
    (forall x y, R x y -> f x = g y) -> Forall2 R l l' -> map f l = map g l'.
Proof.
  intros A B C f g R l l' HR H. induction H; simpl; [reflexivity|].
  f_equal; auto.
Qed.

(** The builder either overflows or returns the summaries of the distinct
    departments in the order of their first occurrence. *)
Lemma build_department_summaries_cases :
  forall rows,
    build_department_summaries rows = Raise OverflowError
    \/ exists summaries,
         build_department_summaries rows = Ok summaries
         /\ map name summaries = first_occurrences (map department rows).
Proof.
  intros rows. destruct (build_department_summaries rows) as [ss|e] eqn:E;
    unfold build_department_summaries in E.
  - right. exists ss. split; [reflexivity|].
    apply comprehension_Ok in E.
    rewrite <- salaries_by_department_keys. symmetry.
    apply (Forall2_map_eq fst name (fun x y => summarize x = Ok y));
      [|exact E].
    intros [d sal] y Hy. apply summarize_Ok in Hy. symmetry. apply Hy.
  - left. apply comprehension_Raise in E. destruct E as ([d sal] & Hin & Hs).
    destruct (salaries_by_department_In _ _ _ Hin) as [-> Hne].
    destruct (summarize_cases d (salaries_of d rows)
                (salaries_of_nonempty _ _ Hne)) as [[s Hs']|Hs']; congruence.
Qed.

Lemma build_department_summaries_returns :
  forall rows,
    Forall (fun row => Z.abs (salary row) < 2 ^ 1023) rows ->
    exists summaries, build_department_summaries rows = Ok summaries.
Proof.
  intros rows Hb. unfold build_department_summaries.
  apply comprehension_total. intros [d sal] Hin.
  destruct (salaries_by_department_In _ _ _ Hin) as [-> Hne].
  apply salaries_of_nonempty in Hne.
  assert (Hall : forall y, In y (salaries_of d rows) ->
                           - (2 ^ 1023 - 1) <= y <= 2 ^ 1023 - 1).
  { intros y Hy. unfold salaries_of, records_of in Hy.
    apply in_map_iff in Hy. destruct Hy as (r & <- & Hr).
    apply filter_In in Hr. destruct Hr as [Hr _].
    rewrite Forall_forall in Hb. specialize (Hb r Hr). cbv beta in Hb. lia. }
  pose proof (py_sum_bounds _ _ _ Hall) as Hs.
  pose proof (py_len_pos _ Hne) as Hl.
  destruct (int_true_divide_returns (py_sum (salaries_of d rows))
              (py_len (salaries_of d rows)) Hl) as [avg Havg]; [nia|].
  unfold summarize. destruct (salaries_of d rows) as [|x sal];
    [contradiction|].
  cbn [py_min py_max bind]. rewrite Havg. cbn [bind]. eexists. reflexivity.
Qed.

(** ** Lemmas on the writer *)

Lemma string_app_nil_r : forall s, (s ++ EmptyString)%string = s.
Proof. induction s as [|c s IH]; simpl; [|rewrite IH]; reflexivity. Qed.

Lemma string_app_assoc :
  forall s1 s2 s3, ((s1 ++ s2) ++ s3)%string = (s1 ++ (s2 ++ s3))%string.
Proof. induction s1 as [|c s1 IH]; intros; simpl; [|rewrite IH]; reflexivity. Qed.

Lemma concat_cons :
  forall x l,
    String.concat EmptyString (x :: l)
    = (x ++ String.concat EmptyString l)%string.
Proof.
  intros x [|y l]; simpl; [symmetry; apply string_app_nil_r|reflexivity].
Qed.

Lemma writerows_output :
  forall rowdicts w,
    output_file (writerows w rowdicts)
    = (output_file w
         ++ delimited_table DEFAULT_DELIMITER
              (map (dict_to_list w) rowdicts))%string.
Proof.
  unfold writerows, delimited_table.
  induction rowdicts as [|rd rowdicts IH]; intros w.
  - simpl. symmetry. apply string_app_nil_r.
  - cbn [fold_left map]. rewrite IH, concat_cons.
    cbn [emit output_file]. rewrite string_app_assoc. reflexivity.
Qed.

Lemma dict_to_list_asdict :
  forall text summary,
    dict_to_list (mkDictWriter DepartmentSummary_fields text) (asdict summary)
    = summary_cells summary.
Proof. reflexivity. Qed.

(** The file written is the comma-delimited table of the header and of the
    rows of the summaries, in their order. *)
Lemma written_summaries_table :
  forall summaries,
    written_summaries summaries
    = delimited_table DEFAULT_DELIMITER
        (summary_header :: map summary_cells summaries).
Proof.
  intros summaries. unfold written_summaries.
  rewrite writerows_output, map_map.
  rewrite (map_ext _ summary_cells) by (intros s; apply dict_to_list_asdict).
  unfold delimited_table. cbn [map]. rewrite concat_cons. reflexivity.
Qed.

(** ** Properties *)

(** C1, as amended: for every list of department summaries, the file the
    summary persister writes is a comma-delimited table (the default of the
    csv writer, not the semicolon of the input): first the header row of
    exactly the five field names name, headcount, min_salary, max_salary,
    avg_salary in this order, then one data row per summary, in the order
    of the list. *)
Theorem write_department_summaries_comma_table :
  forall summaries file_name fs,
    write_department_summaries summaries file_name fs file_name
    = Some (delimited_table ","%char
              (["name"; "headcount"; "min_salary"; "max_salary";
                "avg_salary"]%string
               :: map summary_cells summaries)).
Proof.
  intros summaries file_name fs.
  unfold write_department_summaries, write_file.
  rewrite String.eqb_refl, written_summaries_table. reflexivity.
Qed.

(** The file written for the empty list of summaries is not the
    semicolon-delimited header. *)
Lemma write_department_summaries_not_semicolon :
  write_department_summaries [] OUTPUT_FILE_NAME (fun _ => None)
    OUTPUT_FILE_NAME
  <> Some (delimited_table DELIMITER (summary_header :: map summary_cells [])).
Proof. vm_compute. discriminate. Qed.

Lemma parse_row_missing_field :
  forall header row f,
    first_missing_field header = Some f ->
    let d := dictreader_row header row in
    parse_row d = Raise (KeyError f)
    \/ (f = SALARY_FIELD
        /\ exists c e, dict_get RATING_FIELD d = Some c
                       /\ py_float c = Raise e /\ parse_row d = Raise e).
Proof.
  intros header row f H d. subst d.
  unfold first_missing_field, REQUIRED_FIELDS in H. cbn [map fst find] in H.
  unfold parse_row.
  destruct (mem FULL_NAME_FIELD header) eqn:M1; cbn [negb] in H;
    [|injection H as <-; left;
      rewrite dictreader_row_missing by assumption; reflexivity].
  destruct (dictreader_row_present header row _ M1) as (c1 & _ & ->).
  destruct (py_str_Ok c1) as [v1 S1]. cbn [bind]. rewrite S1. cbn [bind].
  destruct (mem DEPARTMENT_FIELD header) eqn:M2; cbn [negb] in H;
    [|injection H as <-; left;
      rewrite dictreader_row_missing by assumption; reflexivity].
  destruct (dictreader_row_present header row _ M2) as (c2 & _ & ->).
  destruct (py_str_Ok c2) as [v2 S2]. cbn [bind]. rewrite S2. cbn [bind].
  destruct (mem TEAM_FIELD header) eqn:M3; cbn [negb] in H;
    [|injection H as <-; left;
      rewrite dictreader_row_missing by assumption; reflexivity].
  destruct (dictreader_row_present header row _ M3) as (c3 & _ & ->).
  destruct (py_str_Ok c3) as [v3 S3]. cbn [bind]. rewrite S3. cbn [bind].
  destruct (mem RATING_FIELD header) eqn:M4; cbn [negb] in H;
    [|injection H as <-; left;
      rewrite dictreader_row_missing by assumption; reflexivity].
  destruct (dictreader_row_present header row _ M4) as (c4 & G4 & ->).
  cbn [bind].
  destruct (mem SALARY_FIELD header) eqn:M5; cbn [negb] in H; [discriminate|].
  injection H as <-.
  destruct (py_float c4) as [v4|e] eqn:S4; cbn [bind].
  - left. rewrite dictreader_row_missing by assumption. reflexivity.
  - right. split; [reflexivity|]. exists c4, e. auto.
Qed.




(** A header without the salary column and a rating that is not a number:
    the coercion error comes first. *)
Example read_input_file_coercion_before_schema :
  read_input_file
    (Examples.one_file Examples.input_without_salary_bad_rating)
    INPUT_FILE_NAME
  = Raise ValueError.
Proof. vm_compute. reflexivity. Qed.




Lemma salaries_of_In :
  forall d rows y,
    In y (salaries_of d rows) ->
    exists row, In row rows /\ department row = d /\ salary row = y.
Proof.
  intros d rows y Hy. unfold salaries_of, records_of in Hy.
  apply in_map_iff in Hy. destruct Hy as (r & <- & Hr).
  apply filter_In in Hr. destruct Hr as [Hr E]. apply String.eqb_eq in E.
  exists r. auto.
Qed.

(** C3, as amended: for every department summary the salary summary builder
    returns from a record list whose salaries have magnitude at most 2^53,
    min_salary <= avg_salary <= max_salary, where avg_salary is the quotient
    sum/count of the salaries of the department, rounded to the nearest
    float. *)
Theorem build_department_summaries_avg_between :
  forall rows summaries s,
    Forall (fun row => Z.abs (salary row) <= 2 ^ 53) rows ->
    build_department_summaries rows = Ok summaries ->
    In s summaries ->
    int_le_float (min_salary s) (avg_salary s) = true
    /\ float_le_int (avg_salary s) (max_salary s) = true
    /\ int_true_divide (py_sum (salaries_of (name s) rows))
         (py_len (salaries_of (name s) rows))
       = Ok (avg_salary s).
Proof.
  intros rows summaries s Hb H Hin.
  destruct (build_department_summaries_In _ _ _ H Hin) as [Hne Hs].
  destruct (summarize_Ok _ _ _ Hs) as (_ & _ & Hmin & Hmax & Havg).
  set (sal := salaries_of (name s) rows) in *.
  destruct (py_min_spec _ _ Hmin) as [Imin Lmin].
  destruct (py_max_spec _ _ Hmax) as [Imax Lmax].
  assert (Hall : forall y, In y sal -> Z.abs y <= 2 ^ 53).
  { intros y Hy. destruct (salaries_of_In _ _ _ Hy) as (r & Hr & _ & <-).
    rewrite Forall_forall in Hb. apply (Hb r Hr). }
  pose proof (Hall _ Imin) as Bmin. pose proof (Hall _ Imax) as Bmax.
  pose proof (py_sum_bounds sal (min_salary s) (max_salary s)
                (fun y Hy => conj (Lmin y Hy) (Lmax y Hy))) as [Slo Shi].
  pose proof (py_len_pos sal (salaries_of_nonempty _ _ Hne)) as Hlen.
  destruct (int_true_divide_between (py_sum sal) (py_len sal)
              (min_salary s) (max_salary s))
    as (x & Hx & Hle & Hge); try lia.
  rewrite Havg in Hx. injection Hx as <-. auto.
Qed.

Lemma build_department_summaries_avg_between_witness :
  int_le_float (min_salary Examples.eng) (avg_salary Examples.eng) = true
  /\ float_le_int (avg_salary Examples.eng) (max_salary Examples.eng) = true
  /\ int_true_divide (py_sum (salaries_of (name Examples.eng) Examples.rows))
       (py_len (salaries_of (name Examples.eng) Examples.rows))
     = Ok (avg_salary Examples.eng).
Proof.
  apply (build_department_summaries_avg_between Examples.rows
           [Examples.eng; Examples.sales] Examples.eng).
  - repeat constructor; vm_compute; discriminate.
  - vm_compute. reflexivity.
  - simpl. auto.
Defined.

(** A department with the single salary 2^53 + 1: the average is the float
    2^53, below the minimum. *)
Lemma build_department_summaries_avg_below_min :
  exists s,
    build_department_summaries Examples.odd_rows = Ok [s]
    /\ int_le_float (min_salary s) (avg_salary s) = false.
Proof.
  exists (mkDepartmentSummary "Eng" 1 (2 ^ 53 + 1) (2 ^ 53 + 1)
            (Finite false (2 ^ 52) 1)).
  split; vm_compute; reflexivity.
Qed.

(** C4: for every record list and every department summary the salary
    summary builder returns, headcount is the number of input records whose
    department is that of the summary, and min_salary and max_salary are
    the minimum and the maximum of the salaries of exactly those records. *)
Theorem build_department_summaries_headcount_min_max :
  forall rows summaries s,
    build_department_summaries rows = Ok summaries ->
    In s summaries ->
    headcount s = Z.of_nat (List.length (records_of (name s) rows))
    /\ In (min_salary s) (salaries_of (name s) rows)
    /\ (forall y, In y (salaries_of (name s) rows) -> min_salary s <= y)
    /\ In (max_salary s) (salaries_of (name s) rows)
    /\ (forall y, In y (salaries_of (name s) rows) -> y <= max_salary s).
Proof.
  intros rows summaries s H Hin.
  destruct (build_department_summaries_In _ _ _ H Hin) as [Hne Hs].
  destruct (summarize_Ok _ _ _ Hs) as (_ & Hcount & Hmin & Hmax & _).
  destruct (py_min_spec _ _ Hmin) as [Imin Lmin].
  destruct (py_max_spec _ _ Hmax) as [Imax Lmax].
  repeat split; try assumption.
  rewrite Hcount. unfold py_len, salaries_of. rewrite length_map. reflexivity.
Qed.

Lemma build_department_summaries_headcount_min_max_witness :
  headcount Examples.eng
  = Z.of_nat (List.length (records_of (name Examples.eng) Examples.rows))
  /\ In (min_salary Examples.eng)
        (salaries_of (name Examples.eng) Examples.rows)
  /\ (forall y, In y (salaries_of (name Examples.eng) Examples.rows) ->
                min_salary Examples.eng <= y)
  /\ In (max_salary Examples.eng)
        (salaries_of (name Examples.eng) Examples.rows)
  /\ (forall y, In y (salaries_of (name Examples.eng) Examples.rows) ->
                y <= max_salary Examples.eng).
Proof.
  apply (build_department_summaries_headcount_min_max Examples.rows
           [Examples.eng; Examples.sales] Examples.eng).
  - vm_compute. reflexivity.
  - simpl. auto.
Defined.

(** C5, as amended: for every record list, either the salary summary
    builder raises OverflowError (the average salary of a department is too
    large for a float) and produces no summary, or the set of department
    names of its summaries equals the set of department names of the
    hierarchy builder. *)
Theorem hierarchy_and_summaries_same_departments :
  forall rows,
    build_department_summaries rows = Raise OverflowError
    \/ exists summaries,
         build_department_summaries rows = Ok summaries
         /\ forall d, In d (map fst (company_hierarchy rows))
                      <-> In d (map name summaries).
Proof.
  intros rows.
  destruct (build_department_summaries_cases rows) as [H|(ss & H & Hn)].
  - left. assumption.
  - right. exists ss. split; [assumption|]. intros d.
    rewrite company_hierarchy_keys, Hn. tauto.
Qed.

(** A salary of 2^1024: the hierarchy has the department, the summary
    builder raises and produces no summary. *)
Lemma hierarchy_department_without_summary :
  map fst (company_hierarchy Examples.huge_rows) = ["Eng"%string]
  /\ build_department_summaries Examples.huge_rows = Raise OverflowError.
Proof. split; vm_compute; reflexivity. Qed.

(** C7: for every record list, every department key of the intermediate
    per-department salary collection comes from at least one record, whose
    salary is in the list of the key; so min and max are not applied to an
    empty list and the division is not by zero, the builder raises neither
    ValueError nor ZeroDivisionError, and no summary has headcount 0. *)
Theorem salaries_by_department_nonempty :
  forall rows,
    (forall d sal,
        In (d, sal) (salaries_by_department rows) ->
        (exists row, In row rows /\ department row = d /\ In (salary row) sal)
        /\ (exists lo hi, py_min sal = Ok lo /\ py_max sal = Ok hi)
        /\ py_len sal <> 0
        /\ int_true_divide (py_sum sal) (py_len sal)
           <> Raise ZeroDivisionError)
    /\ build_department_summaries rows <> Raise ValueError
    /\ build_department_summaries rows <> Raise ZeroDivisionError
    /\ (forall summaries s,
           build_department_summaries rows = Ok summaries ->
           In s summaries -> 1 <= headcount s).
Proof.
  intros rows. split; [|split; [|split]].
  - intros d sal Hin.
    destruct (salaries_by_department_In _ _ _ Hin) as [-> Hne].
    pose proof (salaries_of_nonempty _ _ Hne) as Hsal.
    pose proof (py_len_pos _ Hsal) as Hlen.
    split; [|split; [|split]].
    + unfold salaries_of. destruct (records_of d rows) as [|r rs] eqn:E;
        [contradiction|].
      assert (Hr : In r (records_of d rows)) by (rewrite E; left; reflexivity).
      unfold records_of in Hr. apply filter_In in Hr. destruct Hr as [Hr Hd].
      apply String.eqb_eq in Hd. exists r. repeat split; try assumption.
      left. reflexivity.
    + destruct (salaries_of d rows); [contradiction|].
      eexists. eexists. split; reflexivity.
    + lia.
    + destruct (int_true_divide_cases (py_sum (salaries_of d rows))
                  (py_len (salaries_of d rows))) as [[x ->]| ->];
        [lia|discriminate|discriminate].
  - destruct (build_department_summaries_cases rows) as [->|(ss & -> & _)];
      discriminate.
  - destruct (build_department_summaries_cases rows) as [->|(ss & -> & _)];
      discriminate.
  - intros summaries s H Hin.
    destruct (build_department_summaries_In _ _ _ H Hin) as [Hne Hs].
    destruct (summarize_Ok _ _ _ Hs) as (_ & -> & _).
    pose proof (py_len_pos _ (salaries_of_nonempty _ _ Hne)). lia.
Qed.

Lemma salaries_by_department_nonempty_witness :
  (exists row, In row Examples.rows /\ department row = "Eng"%string
               /\ In (salary row) [100; 200])
  /\ 1 <= headcount Examples.eng.
Proof.
  destruct (salaries_by_department_nonempty Examples.rows)
    as (H1 & _ & _ & H4).
  split.
  - apply (H1 "Eng"%string [100; 200]). vm_compute. auto.
  - apply (H4 [Examples.eng; Examples.sales] Examples.eng).
    + vm_compute. reflexivity.
    + simpl. auto.
Defined.



(** The mean of 1, 2 and 2 is stored as the float nearest to 5/3, neither
    the floor quotient 1 nor the displayed 1.7. *)
Example avg_salary_not_floor_not_rounded :
  build_department_summaries Examples.thirds
  = Ok [mkDepartmentSummary "Eng" 3 1 2
          (Finite false 7505999378950827 (-52))]
  /\ float_eq_int (Finite false 7505999378950827 (-52)) (5 / 3) = false
  /\ float_of_text "1.7" = Ok (Finite false 7656119366529843 (-52))
  /\ print_department_summaries
       [mkDepartmentSummary "Eng" 3 1 2
          (Finite false 7505999378950827 (-52))]
     = ["Eng: headcount: 3, min: 1, max: 2, avg: 1.7"%string].
Proof. repeat split; vm_compute; reflexivity. Qed.

(** C9: for an input with a header and no data row the loader returns the
    empty record list; for the empty record list the hierarchy builder
    yields the empty mapping and the salary summary builder the empty list
    of summaries. *)
Theorem empty_input_empty_results :
  forall fs file_name content header,
    fs file_name = Some content ->
    reader DELIMITER content = [header] ->
    read_input_file fs file_name = Ok []
    /\ company_hierarchy [] = []
    /\ build_department_summaries [] = Ok [].
Proof.
  intros fs file_name content header Hfs Hr.
  unfold read_input_file. rewrite Hfs, Hr. repeat split.
Qed.

Lemma empty_input_empty_results_witness :
  read_input_file (Examples.one_file Examples.header_line) INPUT_FILE_NAME
  = Ok []
  /\ company_hierarchy [] = []
  /\ build_department_summaries [] = Ok [].
Proof.
  apply (empty_input_empty_results (Examples.one_file Examples.header_line)
           INPUT_FILE_NAME Examples.header_line
           [FULL_NAME_FIELD; DEPARTMENT_FIELD; TEAM_FIELD; POSITION_FIELD;
            RATING_FIELD; SALARY_FIELD]);
    vm_compute; reflexivity.
Defined.

(** C10, as amended: for every record list, either the salary summary
    builder raises OverflowError, or it returns exactly one summary per
    distinct department, in the order of the first occurrence of each
    department in the record sequence, and the summary persister writes
    the data rows in that same order. *)
Theorem summaries_in_first_occurrence_order :
  forall rows,
    build_department_summaries rows = Raise OverflowError
    \/ exists summaries,
         build_department_summaries rows = Ok summaries
         /\ map name summaries = first_occurrences (map department rows)
         /\ NoDup (map name summaries)
         /\ (forall d, In d (map name summaries)
                       <-> In d (map department rows))
         /\ written_summaries summaries
            = delimited_table DEFAULT_DELIMITER
                (summary_header :: map summary_cells summaries)
         /\ map (hd EmptyString) (map summary_cells summaries)
            = first_occurrences (map department rows).
Proof.
  intros rows.
  destruct (build_department_summaries_cases rows) as [H|(ss & H & Hn)].
  - left. assumption.
  - right. exists ss. split; [assumption|]. split; [assumption|].
    split; [rewrite Hn; apply first_occurrences_NoDup|].
    split; [intros d; rewrite Hn; apply first_occurrences_In|].
    split; [apply written_summaries_table|].
    rewrite map_map. exact Hn.
Qed.

(** A salary of 2^1024 in the second department: the builder returns no
    summary at all. *)
Lemma build_department_summaries_overflow :
  first_occurrences (map department Examples.huge_rows2)
  = ["Sales"; "Eng"]%string
  /\ build_department_summaries Examples.huge_rows2 = Raise OverflowError
  /\ ~ (exists summaries,
          build_department_summaries Examples.huge_rows2 = Ok summaries).
Proof.
  split; [vm_compute; reflexivity|]. split; [vm_compute; reflexivity|].
  intros [ss H]. vm_compute in H. discriminate.
Qed.

(** The summaries of the example records and the file written for them. *)
Example example_summaries :
  build_department_summaries Examples.rows = Ok [Examples.eng; Examples.sales]
  /\ company_hierarchy Examples.rows
     = [("Eng", ["Core"; "Infra"]); ("Sales", ["EMEA"])]%string
  /\ print_department_summaries [Examples.eng; Examples.sales]
     = ["Eng: headcount: 2, min: 100, max: 200, avg: 150.0";
        "Sales: headcount: 1, min: 150, max: 150, avg: 150.0"]%string
  /\ written_summaries [Examples.eng; Examples.sales]
     = ("name,headcount,min_salary,max_salary,avg_salary" ++ LINETERMINATOR
          ++ "Eng,2,100,200,150.0" ++ LINETERMINATOR
          ++ "Sales,1,150,150,150.0" ++ LINETERMINATOR)%string.
Proof. repeat split; vm_compute; reflexivity. Qed.

Example example_input_rows :
  read_input_file (Examples.one_file Examples.input) INPUT_FILE_NAME
  = Ok Examples.input_rows.
Proof. vm_compute. reflexivity. Qed.

(** ** Further properties of the loader *)

Lemma int_of_text_error : forall s e, int_of_text s = Raise e -> e = ValueError.
Proof.
  intros s e. unfold int_of_text.
  destruct (split_sign _) as [neg digits].
  destruct (digitpart digits) as [[v n]|]; congruence.
Qed.

Lemma float_of_text_error :
  forall s e, float_of_text s = Raise e -> e = ValueError.
Proof.
  intros s e. unfold float_of_text.
  destruct (split_sign _) as [neg body].
  destruct (_ || _); [discriminate|]. destruct (text_eqb _ _); [discriminate|].
  destruct (split_at _ body) as [mant expo].
  destruct (mantissa_of_text mant) as [[i nf]|];
    destruct (exponent_of_text expo); congruence.
Qed.

Lemma parse_row_error :
  forall d e,
    parse_row d = Raise e ->
    e = ValueError \/ e = TypeError
    \/ exists k, e = KeyError k /\ In k (map fst REQUIRED_FIELDS).
Proof.
  intros d e H. unfold parse_row, dict_item in H.
  set (G := e = ValueError \/ e = TypeError
            \/ exists k, e = KeyError k /\ In k (map fst REQUIRED_FIELDS)).
  assert (R : forall k, In k (map fst REQUIRED_FIELDS) ->
                        @Raise Employee (KeyError k) = Raise e -> G).
  { intros k Hk E. injection E as <-. right. right. exists k. auto. }
  destruct (dict_get FULL_NAME_FIELD d) as [c1|]; cbn [bind] in H;
    [|apply (R FULL_NAME_FIELD); [cbn; tauto|exact H]].
  destruct (py_str_Ok c1) as [v1 S1]. rewrite S1 in H. cbn [bind] in H.
  destruct (dict_get DEPARTMENT_FIELD d) as [c2|]; cbn [bind] in H;
    [|apply (R DEPARTMENT_FIELD); [cbn; tauto|exact H]].
  destruct (py_str_Ok c2) as [v2 S2]. rewrite S2 in H. cbn [bind] in H.
  destruct (dict_get TEAM_FIELD d) as [c3|]; cbn [bind] in H;
    [|apply (R TEAM_FIELD); [cbn; tauto|exact H]].
  destruct (py_str_Ok c3) as [v3 S3]. rewrite S3 in H. cbn [bind] in H.
  destruct (dict_get RATING_FIELD d) as [c4|]; cbn [bind] in H;
    [|apply (R RATING_FIELD); [cbn; tauto|exact H]].
  destruct (py_float c4) as [v4|e4] eqn:S4; cbn [bind] in H.
  - destruct (dict_get SALARY_FIELD d) as [c5|]; cbn [bind] in H;
      [|apply (R SALARY_FIELD); [cbn; tauto|exact H]].
    destruct (py_int c5) as [v5|e5] eqn:S5; cbn [bind] in H; [discriminate|].
    injection H as <-. destruct c5 as [s|]; cbn in S5.
    + left. eapply int_of_text_error; eassumption.
    + right. left. congruence.
  - injection H as <-. destruct c4 as [s|]; cbn in S4.
    + left. eapply float_of_text_error; eassumption.
    + right. left. congruence.
Qed.



Lemma fold_dict_set_other :
  forall {X V : Type} (kf : X -> string) (vf : X -> V) l d k,
    ~ In k (map kf l) ->
    dict_get k (fold_left (fun d x => dict_set (kf x) (vf x) d) l d)
    = dict_get k d.
Proof.
  intros X V kf vf. induction l as [|x l IH]; intros d k Hk; simpl.
  - reflexivity.
  - rewrite IH, dict_set_get.
    + destruct (String.eqb k (kf x)) eqn:E; [|reflexivity].
      apply String.eqb_eq in E. exfalso. apply Hk. left. auto.
    + intros Hin. apply Hk. right. exact Hin.
Qed.

Lemma fold_dict_set_In :
  forall {X V : Type} (kf : X -> string) (vf : X -> V) l d x,
    NoDup (map kf l) -> In x l ->
    dict_get (kf x) (fold_left (fun d x => dict_set (kf x) (vf x) d) l d)
    = Some (vf x).
Proof.
  intros X V kf vf. induction l as [|y l IH]; intros d x Hnd Hin;
    [contradiction|].
  simpl in *. inversion Hnd as [|? ? Hy Hnd']; subst.
  destruct Hin as [->|Hin].
  - rewrite fold_dict_set_other by assumption.
    rewrite dict_set_get, String.eqb_refl. reflexivity.
  - apply IH; assumption.
Qed.

Lemma NoDup_firstn :
  forall {A : Type} n (l : list A), NoDup l -> NoDup (firstn n l).
Proof.
  intros A n l H. rewrite <- (firstn_skipn n l) in H.
  apply NoDup_app_remove_r in H. exact H.
Qed.

Lemma NoDup_skipn :
  forall {A : Type} n (l : list A), NoDup l -> NoDup (skipn n l).
Proof.
  intros A n l H. rewrite <- (firstn_skipn n l) in H.
  apply NoDup_app_remove_l in H. exact H.
Qed.

Lemma NoDup_app_disjoint :
  forall {A : Type} (l1 l2 : list A) x,
    NoDup (l1 ++ l2) -> In x l1 -> In x l2 -> False.
Proof.
  induction l1 as [|a l1 IH]; intros l2 x Hnd H1 H2; [contradiction|].
  simpl in Hnd. inversion Hnd as [|? ? Ha Hnd']; subst.
  destruct H1 as [->|H1].
  - apply Ha. apply in_or_app. right. exact H2.
  - eapply IH; eassumption.
Qed.

Lemma nth_error_combine :
  forall {A B : Type} (l : list A) (l' : list B) i x y,
    nth_error l i = Some x -> nth_error l' i = Some y ->
    In (x, y) (combine l l').
Proof.
  induction l as [|a l IH]; intros l' i x y Hx Hy.
  - destruct i; discriminate.
  - destruct l' as [|b l']; [destruct i; discriminate|].
    destruct i as [|i]; simpl in *.
    + injection Hx as ->. injection Hy as ->. left. reflexivity.
    + right. eapply IH; eassumption.
Qed.

Lemma nth_error_skipn_In :
  forall {A : Type} (l : list A) n i x,
    nth_error l i = Some x -> (n <= i)%nat -> In x (skipn n l).
Proof.
  induction l as [|a l IH]; intros n i x Hx Hn.
  - destruct i; discriminate.
  - destruct n as [|n].
    + exact (nth_error_In _ _ Hx).
    + cbn [skipn]. destruct i as [|i]; [lia|]. simpl in Hx.
      eapply IH; [exact Hx|lia].
Qed.

Lemma nth_error_firstn_In :
  forall {A : Type} (l : list A) n i x,
    nth_error l i = Some x -> (i < n)%nat -> In x (firstn n l).
Proof.
  induction l as [|a l IH]; intros n i x Hx Hn.
  - destruct i; discriminate.
  - destruct n as [|n]; [lia|]. simpl. destruct i as [|i]; simpl in Hx.
    + injection Hx as ->. left. reflexivity.
    + right. eapply IH; [exact Hx|lia].
Qed.

(** The cell under a name is the cell at the position of the name. *)
Lemma dictreader_row_cell :
  forall header row i f,
    NoDup header -> nth_error header i = Some f ->
    dict_get f (dictreader_row header row) = Some (nth_error row i).
Proof.
  intros header row i f Hnd Hi. unfold dictreader_row.
  pose proof (firstn_skipn (List.length row) header) as Hsplit.
  assert (Hnd2 : NoDup (firstn (List.length row) header ++
                        skipn (List.length row) header))
    by (rewrite Hsplit; exact Hnd).
  destruct (nth_error row i) as [c|] eqn:Hc.
  - assert (Hlt : (i < List.length row)%nat)
      by (apply nth_error_Some; congruence).
    rewrite (fold_dict_set_other (fun k : string => k)
               (fun _ : string => @None string)).
    + apply (fold_dict_set_In fst (fun kv : string * string => Some (snd kv))
               _ _ (f, c)).
      * rewrite map_fst_combine. apply NoDup_firstn. exact Hnd.
      * eapply nth_error_combine; eassumption.
    + rewrite map_id. intros Hin.
      pose proof (nth_error_firstn_In _ _ _ _ Hi Hlt) as Hin1.
      exact (NoDup_app_disjoint _ _ _ Hnd2 Hin1 Hin).
  - assert (Hge : (List.length row <= i)%nat) by (apply nth_error_None; exact Hc).
    apply (fold_dict_set_In (fun k : string => k)
             (fun _ : string => @None string) _ _ f).
    + rewrite map_id. apply NoDup_skipn. exact Hnd.
    + eapply nth_error_skipn_In; eassumption.
Qed.

(** X2: under a header that names no column twice, the cell a row holds
    under a name is the cell at the position of the name in the header,
    whatever the order of the columns and whatever other columns there
    are; it is None when the row is too short to reach that position. A
    row holds nothing under a name that is not in the header. *)
Theorem dictreader_row_by_position :
  forall header row,
    NoDup header ->
    (forall i f,
        nth_error header i = Some f ->
        dict_get f (dictreader_row header row) = Some (nth_error row i))
    /\ (forall f,
           ~ In f header -> dict_get f (dictreader_row header row) = None).
Proof.
  intros header row Hnd. split.
  - intros i f Hi. apply dictreader_row_cell; assumption.
  - intros f Hf. apply dictreader_row_get_None. exact Hf.
Qed.

Lemma dictreader_row_by_position_witness :
  dict_get DEPARTMENT_FIELD
    (dictreader_row (header_of Examples.input) ["Ann"; "Eng"]%string)
  = Some (nth_error ["Ann"; "Eng"]%string 1)
  /\ dict_get SALARY_FIELD
       (dictreader_row (header_of Examples.input) ["Ann"; "Eng"]%string)
     = Some (nth_error ["Ann"; "Eng"]%string 5).
Proof.
  assert (Hnd : NoDup (header_of Examples.input)).
  { vm_compute. repeat constructor; simpl; intuition discriminate. }
  destruct (dictreader_row_by_position (header_of Examples.input)
              ["Ann"; "Eng"]%string Hnd) as [H _].
  split; apply H; reflexivity.
Defined.

Lemma Forall2_map_l :
  forall {A B C : Type} (f : A -> B) (R : B -> C -> Prop) l l',
    Forall2 R (map f l) l' -> Forall2 (fun x y => R (f x) y) l l'.
Proof.
  intros A B C f R. induction l as [|x l IH]; intros l' H; simpl in H;
    inversion H; subst; constructor; auto.
Qed.

(** X3: under a header that names no column twice, a data row too short to
    reach the column of a string field (full name, department, team) gets
    the text None in that field of its record, and a data row too short to
    reach the rating or the salary column makes the whole load fail. *)
Theorem read_input_file_short_row :
  forall fs file_name content,
    fs file_name = Some content ->
    NoDup (header_of content) ->
    (forall records,
        read_input_file fs file_name = Ok records ->
        Forall2
          (fun row r =>
             forall i, (List.length row <= i)%nat ->
               (nth_error (header_of content) i = Some FULL_NAME_FIELD ->
                full_name r = "None"%string)
               /\ (nth_error (header_of content) i = Some DEPARTMENT_FIELD ->
                   department r = "None"%string)
               /\ (nth_error (header_of content) i = Some TEAM_FIELD ->
                   team r = "None"%string))
          (data_rows_of content) records)
    /\ (forall row i,
           In row (data_rows_of content) -> (List.length row <= i)%nat ->
           nth_error (header_of content) i = Some RATING_FIELD
           \/ nth_error (header_of content) i = Some SALARY_FIELD ->
           exists e, read_input_file fs file_name = Raise e).
Proof.
  intros fs file_name content Hfs Hnd.
  unfold read_input_file. rewrite Hfs, DictReader_table. split.
  - intros records H. apply comprehension_Ok in H. unfold table_of in H.
    apply Forall2_map_l in H. eapply Forall2_impl; [|exact H].
    intros row r Hr i Hi. cbv beta in Hr. apply parse_row_typed in Hr.
    destruct Hr as ((c1 & G1 & S1) & (c2 & G2 & S2) & (c3 & G3 & S3) & _).
    assert (Hnone : nth_error row i = None) by (apply nth_error_None; exact Hi).
    repeat split; intros Hf;
      pose proof (dictreader_row_cell _ row _ _ Hnd Hf) as Hg;
      rewrite Hnone in Hg.
    + rewrite Hg in G1. injection G1 as <-. cbn in S1. congruence.
    + rewrite Hg in G2. injection G2 as <-. cbn in S2. congruence.
    + rewrite Hg in G3. injection G3 as <-. cbn in S3. congruence.
  - intros row i Hrow Hi Hf.
    assert (Hnone : nth_error row i = None) by (apply nth_error_None; exact Hi).
    assert (Hd : In (dictreader_row (header_of content) row)
                    (table_of content))
      by (unfold table_of; apply in_map; exact Hrow).
    destruct Hf as [Hf|Hf];
      pose proof (dictreader_row_cell _ row _ _ Hnd Hf) as Hg;
      rewrite Hnone in Hg.
    + assert (Hin : In (RATING_FIELD, to_float) REQUIRED_FIELDS)
        by (unfold REQUIRED_FIELDS; cbn [In]; tauto).
      destruct (parse_row_fails _ _ _ _ Hin Hg
                  (ex_intro _ TypeError eq_refl)) as [e He].
      eapply comprehension_fails; eassumption.
    + assert (Hin : In (SALARY_FIELD, to_int) REQUIRED_FIELDS)
        by (unfold REQUIRED_FIELDS; cbn [In]; tauto).
      destruct (parse_row_fails _ _ _ _ Hin Hg
                  (ex_intro _ TypeError eq_refl)) as [e He].
      eapply comprehension_fails; eassumption.
Qed.

Lemma read_input_file_short_row_witness :
  Forall2
    (fun row r =>
       forall i, (List.length row <= i)%nat ->
         (nth_error (header_of MoreExamples.input_numbers_first) i
          = Some FULL_NAME_FIELD -> full_name r = "None"%string)
         /\ (nth_error (header_of MoreExamples.input_numbers_first) i
             = Some DEPARTMENT_FIELD -> department r = "None"%string)
         /\ (nth_error (header_of MoreExamples.input_numbers_first) i
             = Some TEAM_FIELD -> team r = "None"%string))
    (data_rows_of MoreExamples.input_numbers_first)
    [mkEmployee "Ann" "None" "None" (Finite false 5066549580791808 (-50)) 100]
  /\ exists e,
       read_input_file (Examples.one_file MoreExamples.input_row_too_short)
         INPUT_FILE_NAME
       = Raise e.
Proof.
  split.
  - apply (read_input_file_short_row
             (Examples.one_file MoreExamples.input_numbers_first)
             INPUT_FILE_NAME MoreExamples.input_numbers_first).
    + reflexivity.
    + vm_compute. repeat constructor; simpl; intuition discriminate.
    + vm_compute. reflexivity.
  - apply (read_input_file_short_row
             (Examples.one_file MoreExamples.input_row_too_short)
             INPUT_FILE_NAME MoreExamples.input_row_too_short)
      with (row := ["Ann"; "Eng"]%string) (i := 4%nat).
    + reflexivity.
    + vm_compute. repeat constructor; simpl; intuition discriminate.
    + vm_compute. auto.
    + simpl. lia.
    + left. vm_compute. reflexivity.
Defined.

(** ** Further properties of the hierarchy builder *)

Lemma fold_set_add :
  forall l acc,
    fold_left (fun s x => set_add x s) l acc
    = acc ++ filter (fun t => negb (mem t acc)) (first_occurrences l).
Proof.
  induction l as [|x l IH]; intros acc; simpl.
  - symmetry. apply app_nil_r.
  - rewrite IH. unfold set_add. fold (mem x acc).
    destruct (mem x acc) eqn:Hm; simpl.
    + f_equal. rewrite filter_filter. apply filter_ext_in.
      intros d _. destruct (String.eqb d x) eqn:E; simpl; [|reflexivity].
      apply String.eqb_eq in E. subst d. rewrite Hm. reflexivity.
    + rewrite <- app_assoc. simpl. do 2 f_equal.
      rewrite filter_filter. apply filter_ext.
      intros d. rewrite mem_app. simpl.
      rewrite orb_false_r, negb_orb. apply andb_comm.
Qed.

Lemma fold_left_map :
  forall {A B C : Type} (g : C -> B -> C) (f : A -> B) l a,
    fold_left (fun v r => g v (f r)) l a = fold_left g (map f l) a.
Proof.
  intros A B C g f. induction l as [|x l IH]; intros a; simpl;
    [reflexivity|apply IH].
Qed.

Lemma company_hierarchy_get :
  forall rows d,
    dict_get d (company_hierarchy rows)
    = match records_of d rows with
      | [] => None
      | _ => Some (teams_of d rows)
      end.
Proof.
  intros rows d. unfold company_hierarchy.
  etransitivity;
    [exact (group_get department [] (fun row => set_add (team row)) rows [] d)|].
  cbn [dict_get]. unfold teams_of, records_of.
  destruct (filter _ rows) as [|r rs] eqn:E; [reflexivity|].
  f_equal.
  rewrite (fold_left_map (fun s x => set_add x s) team).
  rewrite fold_set_add, app_nil_l. apply filter_not_mem_nil.
Qed.

Lemma company_hierarchy_In :
  forall rows d teams,
    In (d, teams) (company_hierarchy rows) ->
    teams = teams_of d rows /\ records_of d rows <> [].
Proof.
  intros rows d teams Hin.
  assert (Hget : dict_get d (company_hierarchy rows) = Some teams).
  { apply dict_get_In; [|assumption].
    rewrite company_hierarchy_keys. apply first_occurrences_NoDup. }
  rewrite company_hierarchy_get in Hget.
  destruct (records_of d rows); [discriminate|].
  injection Hget as <-. split; [reflexivity|discriminate].
Qed.

Lemma teams_of_In :
  forall d rows t,
    In t (teams_of d rows)
    <-> exists row, In row rows /\ department row = d /\ team row = t.
Proof.
  intros d rows t. unfold teams_of, records_of.
  rewrite first_occurrences_In, in_map_iff. split.
  - intros (r & <- & Hr). apply filter_In in Hr. destruct Hr as [Hr E].
    apply String.eqb_eq in E. exists r. auto.
  - intros (r & Hr & <- & <-). exists r. split; [reflexivity|].
    apply filter_In. split; [assumption|apply String.eqb_refl].
Qed.

(** X4: every entry of the mapping the hierarchy builder fills holds, for
    its department, the teams of the records of that department and only
    them, each once, and at least one; no department has two entries. *)
Theorem company_hierarchy_teams :
  forall rows,
    NoDup (map fst (company_hierarchy rows))
    /\ forall d teams,
         In (d, teams) (company_hierarchy rows) ->
         NoDup teams
         /\ teams <> []
         /\ forall t, In t teams
                      <-> exists row, In row rows /\ department row = d
                                      /\ team row = t.
Proof.
  intros rows. split.
  - rewrite company_hierarchy_keys. apply first_occurrences_NoDup.
  - intros d teams Hin.
    destruct (company_hierarchy_In _ _ _ Hin) as [-> Hne].
    split; [apply first_occurrences_NoDup|]. split.
    + destruct (records_of d rows) as [|r rs] eqn:E; [contradiction|].
      unfold teams_of. rewrite E. discriminate.
    + apply teams_of_In.
Qed.

Lemma company_hierarchy_teams_witness :
  NoDup ["Core"; "Infra"]%string
  /\ ["Core"; "Infra"]%string <> []
  /\ forall t, In t ["Core"; "Infra"]%string
               <-> exists row, In row Examples.rows
                               /\ department row = "Eng"%string
                               /\ team row = t.
Proof.
  apply (proj2 (company_hierarchy_teams Examples.rows) "Eng"%string).
  vm_compute. auto.
Defined.

Lemma map_fst_snd :
  forall {V : Type} (g : string -> V) (d : dict V),
    (forall k v, In (k, v) d -> v = g k) ->
    d = map (fun k => (k, g k)) (map fst d).
Proof.
  intros V g. induction d as [|[k v] d IH]; intros H; simpl; [reflexivity|].
  rewrite (H k v (or_introl eq_refl)). f_equal.
  apply IH. intros k' v' Hin. apply H. right. exact Hin.
Qed.

Lemma company_hierarchy_closed_form :
  forall rows,
    company_hierarchy rows
    = map (fun d => (d, teams_of d rows))
          (first_occurrences (map department rows)).
Proof.
  intros rows. rewrite <- company_hierarchy_keys. apply map_fst_snd.
  intros k v Hin. apply company_hierarchy_In in Hin. apply Hin.
Qed.


Lemma salaries_by_department_closed_form :
  forall rows,
    salaries_by_department rows
    = map (fun d => (d, salaries_of d rows))
          (first_occurrences (map department rows)).
Proof.
  intros rows. rewrite <- salaries_by_department_keys. apply map_fst_snd.
  intros k v Hin. apply salaries_by_department_In in Hin. apply Hin.
Qed.

(** ** Further properties of the summary builder *)

(** X6: when every salary has magnitude below 2^1023 the salary summary
    builder raises nothing: it returns one summary per distinct
    department. *)
Theorem build_department_summaries_in_range :
  forall rows,
    Forall (fun row => Z.abs (salary row) < 2 ^ 1023) rows ->
    exists summaries,
      build_department_summaries rows = Ok summaries
      /\ map name summaries = first_occurrences (map department rows).
Proof.
  intros rows Hb.
  destruct (build_department_summaries_returns rows Hb) as [ss Hss].
  exists ss. split; [exact Hss|].
  destruct (build_department_summaries_cases rows) as [H|(ss' & H & Hn)];
    congruence.
Qed.

Lemma build_department_summaries_in_range_witness :
  exists summaries,
    build_department_summaries Examples.rows = Ok summaries
    /\ map name summaries = first_occurrences (map department Examples.rows).
Proof.
  apply (build_department_summaries_in_range Examples.rows).
  repeat constructor; vm_compute; reflexivity.
Defined.

Lemma build_department_summaries_map :
  forall rows summaries,
    build_department_summaries rows = Ok summaries ->
    Forall2 (fun d s => summarize (d, salaries_of d rows) = Ok s)
            (first_occurrences (map department rows)) summaries.
Proof.
  intros rows summaries H. unfold build_department_summaries in H.
  rewrite salaries_by_department_closed_form in H.
  apply comprehension_Ok in H. apply Forall2_map_l in H. exact H.
Qed.

Lemma py_sum_app : forall l l', py_sum (l ++ l') = py_sum l + py_sum l'.
Proof.
  induction l as [|x l IH]; intros l'; [unfold py_sum at 2; simpl; lia|].
  simpl app. rewrite !py_sum_cons, IH. lia.
Qed.

Lemma py_sum_map_add :
  forall {A : Type} (f g : A -> Z) l,
    py_sum (map (fun x => f x + g x) l) = py_sum (map f l) + py_sum (map g l).
Proof.
  intros A f g. induction l as [|x l IH]; [reflexivity|].
  cbn [map]. rewrite !py_sum_cons, IH. lia.
Qed.

Lemma py_sum_indicator :
  forall keys k,
    NoDup keys -> In k keys ->
    py_sum (map (fun d => if String.eqb k d then 1 else 0) keys) = 1.
Proof.
  induction keys as [|d keys IH]; intros k Hnd Hin; [contradiction|].
  cbn [map]. rewrite py_sum_cons. inversion Hnd as [|? ? Hd Hnd']; subst.
  destruct (String.eqb k d) eqn:E.
  - apply String.eqb_eq in E. subst d.
    assert (Hz : py_sum (map (fun d => if String.eqb k d then 1 else 0) keys)
                 = 0).
    { clear IH Hnd Hnd' Hin. induction keys as [|d keys IH]; [reflexivity|].
      cbn [map]. rewrite py_sum_cons.
      destruct (String.eqb k d) eqn:E.
      - apply String.eqb_eq in E. subst d. exfalso. apply Hd. left. reflexivity.
      - rewrite IH; [lia|]. intros H. apply Hd. right. exact H. }
    rewrite Hz. lia.
  - destruct Hin as [->|Hin]; [rewrite String.eqb_refl in E; discriminate|].
    rewrite IH by assumption. lia.
Qed.

(** Every record counts in exactly one department. *)
Lemma records_partition :
  forall keys rows,
    NoDup keys -> (forall row, In row rows -> In (department row) keys) ->
    py_sum (map (fun d => py_len (records_of d rows)) keys) = py_len rows.
Proof.
  intros keys rows Hnd. induction rows as [|r rows IH]; intros Hall.
  - unfold records_of, py_len. simpl.
    clear Hnd Hall. induction keys as [|d keys IHk]; [reflexivity|].
    cbn [map]. rewrite py_sum_cons, IHk. reflexivity.
  - rewrite py_len_cons.
    rewrite (map_ext (fun d => py_len (records_of d (r :: rows)))
               (fun d => (if String.eqb (department r) d then 1 else 0)
                         + py_len (records_of d rows))).
    + rewrite py_sum_map_add, IH, py_sum_indicator; try assumption; try lia.
      * apply Hall. left. reflexivity.
      * intros row Hrow. apply Hall. right. exact Hrow.
    + intros d. unfold records_of. cbn [filter].
      destruct (String.eqb (department r) d); [|lia].
      rewrite py_len_cons. lia.
Qed.

(** X7: the headcounts of the summaries add up to the number of records:
    every record is counted in exactly one summary. *)
Theorem headcounts_sum_to_number_of_records :
  forall rows summaries,
    build_department_summaries rows = Ok summaries ->
    py_sum (map headcount summaries) = py_len rows.
Proof.
  intros rows summaries H. apply build_department_summaries_map in H.
  rewrite <- (records_partition (first_occurrences (map department rows))).
  - f_equal. symmetry.
    apply (Forall2_map_eq _ _
             (fun d s => summarize (d, salaries_of d rows) = Ok s));
      [|exact H].
    intros d s Hs. apply summarize_Ok in Hs.
    destruct Hs as (_ & -> & _). unfold py_len, salaries_of.
    rewrite length_map. reflexivity.
  - apply first_occurrences_NoDup.
  - intros row Hrow. apply first_occurrences_In. apply in_map. exact Hrow.
Qed.

Lemma headcounts_sum_to_number_of_records_witness :
  py_sum (map headcount [Examples.eng; Examples.sales])
  = py_len Examples.rows.
Proof.
  apply (headcounts_sum_to_number_of_records Examples.rows).
  vm_compute. reflexivity.
Defined.

Lemma records_of_Permutation :
  forall d rows rows',
    Permutation rows rows' ->
    Permutation (records_of d rows) (records_of d rows').
Proof.
  intros d rows rows' H. unfold records_of.
  induction H as [|x l l' H IH|x y l|l l' l'' H1 IH1 H2 IH2]; cbn [filter].
  - constructor.
  - destruct (String.eqb (department x) d); [constructor|]; exact IH.
  - destruct (String.eqb (department x) d), (String.eqb (department y) d);
      try apply Permutation_refl. apply perm_swap.
  - eapply perm_trans; eassumption.
Qed.

Lemma py_sum_Permutation :
  forall l l', Permutation l l' -> py_sum l = py_sum l'.
Proof.
  intros l l' H.
  induction H as [|x l l' H IH|x y l|l l' l'' H1 IH1 H2 IH2].
  - reflexivity.
  - rewrite !py_sum_cons, IH. reflexivity.
  - rewrite !py_sum_cons. lia.
  - congruence.
Qed.

Lemma py_min_Permutation :
  forall l l', Permutation l l' -> py_min l = py_min l'.
Proof.
  intros l l' H.
  destruct (py_min l) as [lo|e] eqn:E, (py_min l') as [lo'|e'] eqn:E'.
  - destruct (py_min_spec _ _ E) as [I L].
    destruct (py_min_spec _ _ E') as [I' L'].
    assert (lo' <= lo) by (apply L'; eapply Permutation_in; eassumption).
    assert (lo <= lo')
      by (apply L; eapply Permutation_in; [apply Permutation_sym|];
          eassumption).
    f_equal. lia.
  - destruct l' as [|x l']; [|discriminate].
    apply Permutation_sym, Permutation_nil in H. subst l. discriminate.
  - destruct l as [|x l]; [|discriminate].
    apply Permutation_nil in H. subst l'. discriminate.
  - destruct l, l'; try discriminate. simpl in *. congruence.
Qed.

Lemma py_max_Permutation :
  forall l l', Permutation l l' -> py_max l = py_max l'.
Proof.
  intros l l' H.
  destruct (py_max l) as [hi|e] eqn:E, (py_max l') as [hi'|e'] eqn:E'.
  - destruct (py_max_spec _ _ E) as [I L].
    destruct (py_max_spec _ _ E') as [I' L'].
    assert (hi <= hi') by (apply L'; eapply Permutation_in; eassumption).
    assert (hi' <= hi)
      by (apply L; eapply Permutation_in; [apply Permutation_sym|];
          eassumption).
    f_equal. lia.
  - destruct l' as [|x l']; [|discriminate].
    apply Permutation_sym, Permutation_nil in H. subst l. discriminate.
  - destruct l as [|x l]; [|discriminate].
    apply Permutation_nil in H. subst l'. discriminate.
  - destruct l, l'; try discriminate. simpl in *. congruence.
Qed.

Lemma summarize_Permutation :
  forall d sal sal',
    Permutation sal sal' -> summarize (d, sal) = summarize (d, sal').
Proof.
  intros d sal sal' H. unfold summarize.
  rewrite (py_min_Permutation _ _ H), (py_max_Permutation _ _ H).
  rewrite (py_sum_Permutation _ _ H). unfold py_len.
  rewrite (Permutation_length H). reflexivity.
Qed.

Lemma comprehension_map :
  forall {A B : Type} (f : A -> result B) l ys,
    comprehension f l = Ok ys <-> map f l = map Ok ys.
Proof.
  intros A B f. induction l as [|x l IH]; intros ys; simpl.
  - split.
    + intros H. injection H as <-. reflexivity.
    + destruct ys; [reflexivity|discriminate].
  - destruct (f x) as [y|e] eqn:Hx; simpl.
    + destruct (comprehension f l) as [ys'|e] eqn:Hl; simpl.
      * split.
        -- intros H. injection H as <-. simpl. f_equal. apply IH. reflexivity.
        -- destruct ys as [|y0 ys]; [discriminate|]. simpl. intros H.
           injection H as -> H. apply IH in H. congruence.
      * split; [discriminate|].
        destruct ys as [|y0 ys]; [discriminate|]. simpl. intros H.
        injection H as -> H. apply IH in H. discriminate.
    + split; [discriminate|].
      destruct ys as [|y0 ys]; discriminate.
Qed.

(** X8: the summaries do not depend on the order of the records, except
    for their own order: for a permutation of the records the builder
    returns a permutation of the same summaries. *)
Theorem build_department_summaries_Permutation :
  forall rows rows' summaries,
    Permutation rows rows' ->
    build_department_summaries rows = Ok summaries ->
    exists summaries',
      build_department_summaries rows' = Ok summaries'
      /\ Permutation summaries summaries'.
Proof.
  intros rows rows' summaries Hp H.
  unfold build_department_summaries in *.
  rewrite salaries_by_department_closed_form in *.
  apply comprehension_map in H. rewrite map_map in H.
  set (f := fun d => summarize (d, salaries_of d rows)) in *.
  assert (Hf : forall d, summarize (d, salaries_of d rows') = f d).
  { intros d. unfold f, salaries_of. symmetry. apply summarize_Permutation.
    apply Permutation_map, records_of_Permutation, Hp. }
  assert (Hk : Permutation (first_occurrences (map department rows))
                           (first_occurrences (map department rows'))).
  { apply NoDup_Permutation; try apply first_occurrences_NoDup.
    intros d. rewrite !first_occurrences_In. split; intros Hd.
    - eapply Permutation_in; [|exact Hd]. apply Permutation_map, Hp.
    - eapply Permutation_in; [|exact Hd].
      apply Permutation_map, Permutation_sym, Hp. }
  apply (Permutation_map f) in Hk. rewrite H in Hk.
  apply Permutation_sym, Permutation_map_inv in Hk.
  destruct Hk as (ss' & Hss' & Hperm). exists ss'. split; [|exact Hperm].
  apply comprehension_map. rewrite map_map, <- Hss'.
  apply map_ext. exact Hf.
Qed.

Lemma build_department_summaries_Permutation_witness :
  exists summaries',
    build_department_summaries (rev Examples.rows) = Ok summaries'
    /\ Permutation [Examples.eng; Examples.sales] summaries'.
Proof.
  apply (build_department_summaries_Permutation Examples.rows).
  - apply Permutation_rev.
  - vm_compute. reflexivity.
Defined.

(** ** Further properties of the summary printer *)

Lemma round_half_even_exact :
  forall q d, 0 < d -> round_half_even (q * d) d = q.
Proof.
  intros q d Hd. apply Z.le_antisymm.
  - apply round_half_even_upper; [assumption|lia].
  - apply round_half_even_lower; [assumption|lia].
Qed.

Lemma str_of_int_neg :
  forall k, k < 0 -> str_of_int k = String "-" (str_of_int (- k)).
Proof. intros [|p|p] H; try lia. reflexivity. Qed.

(** A quotient that is an integer of magnitude at most [2^53] is displayed
    as this integer followed by [.0]. *)
Lemma format_1f_exact :
  forall k n x,
    0 < n -> Z.abs k <= 2 ^ 53 -> int_true_divide (k * n) n = Ok x ->
    format_1f x = (str_of_int k ++ ".0")%string.
Proof.
  intros k n x Hn Hk Hx.
  destruct (int_true_divide_between (k * n) n k k) as (x' & Hx' & L & U);
    try lia.
  rewrite Hx in Hx'. injection Hx' as <-.
  pose proof (int_true_divide_nearest _ _ _ Hn Hx) as Hnear.
  destruct x as [neg m e| |]; try contradiction.
  destruct Hnear as (Hneg & _ & _).
  cbn [int_le_float float_le_int] in L, U.
  apply Z.leb_le in L, U.
  assert (E : shl (signed neg m) e = k * shl 1 (- e))
    by (unfold shl in *; lia).
  assert (Hd : 0 < shl 1 (- e)) by (apply shl_pos; lia).
  cbn [format_1f]. destruct neg; cbn [signed] in E.
  - assert (Hk0 : k < 0).
    { symmetry in Hneg. apply Z.ltb_lt in Hneg. nia. }
    rewrite shl_opp in E.
    replace (shl m e * 10) with ((- k * 10) * shl 1 (- e)) by lia.
    rewrite round_half_even_exact by assumption.
    rewrite Z.div_mul, Z.mod_mul by lia.
    rewrite (str_of_int_neg k Hk0). reflexivity.
  - replace (shl m e * 10) with ((k * 10) * shl 1 (- e)) by lia.
    rewrite round_half_even_exact by assumption.
    rewrite Z.div_mul, Z.mod_mul by lia. reflexivity.
Qed.

(** X9: when the mean of the salaries of a department is an integer k of
    magnitude at most 2^53, the line printed for its summary shows the
    average as k followed by .0: the display loses nothing. *)
Theorem print_department_summaries_integer_mean :
  forall rows summaries s k,
    build_department_summaries rows = Ok summaries ->
    In s summaries ->
    py_sum (salaries_of (name s) rows) = k * headcount s ->
    Z.abs k <= 2 ^ 53 ->
    In (name s ++ ": headcount: " ++ str_of_int (headcount s)
          ++ ", min: " ++ str_of_int (min_salary s)
          ++ ", max: " ++ str_of_int (max_salary s)
          ++ ", avg: " ++ str_of_int k ++ ".0")%string
       (print_department_summaries summaries).
Proof.
  intros rows summaries s k H Hin Hsum Hk.
  destruct (build_department_summaries_In _ _ _ H Hin) as [Hne Hs].
  destruct (summarize_Ok _ _ _ Hs) as (_ & Hcount & _ & _ & Havg).
  rewrite Hsum, Hcount in Havg.
  apply format_1f_exact in Havg;
    [|apply py_len_pos, salaries_of_nonempty, Hne|exact Hk].
  unfold print_department_summaries.
  apply in_map_iff. exists s. split; [|exact Hin].
  unfold summary_line. rewrite Havg. reflexivity.
Qed.

Lemma print_department_summaries_integer_mean_witness :
  In "Eng: headcount: 2, min: 100, max: 200, avg: 150.0"%string
     (print_department_summaries [Examples.eng; Examples.sales]).
Proof.
  apply (print_department_summaries_integer_mean Examples.rows
           [Examples.eng; Examples.sales] Examples.eng 150).
  - vm_compute. reflexivity.
  - simpl. auto.
  - vm_compute. reflexivity.
  - vm_compute. discriminate.
Defined.

(** ** Properties of main *)

Lemma read_input_file_write_file :
  forall fs file_name other content,
    file_name <> other ->
    read_input_file (write_file other content fs) file_name
    = read_input_file fs file_name.
Proof.
  intros fs file_name other content Hne. unfold read_input_file, write_file.
  destruct (String.eqb_spec file_name other); [contradiction|reflexivity].
Qed.

Lemma INPUT_OUTPUT_differ : INPUT_FILE_NAME <> OUTPUT_FILE_NAME.
Proof. vm_compute. discriminate. Qed.

(** X10: whatever is typed, main changes no file but the output file: in
    particular it never changes its input file. *)
Theorem main_writes_output_file_only :
  forall iter_set stdin fs out n,
    n <> OUTPUT_FILE_NAME ->
    Main.files (Main.main iter_set stdin fs out) n = fs n.
Proof.
  intros iter_set stdin. induction stdin as [|option stdin IH];
    intros fs out n Hn; cbn [Main.main].
  - reflexivity.
  - destruct (String.eqb option "q"); [reflexivity|].
    destruct (String.eqb option "1").
    { destruct (read_input_file fs INPUT_FILE_NAME); [apply IH; exact Hn|].
      reflexivity. }
    destruct (String.eqb option "2").
    { destruct (read_input_file fs INPUT_FILE_NAME) as [rows|];
        [|reflexivity].
      destruct (build_department_summaries rows); [apply IH; exact Hn|].
      reflexivity. }
    destruct (String.eqb option "3"); [|apply IH; exact Hn].
    destruct (read_input_file fs INPUT_FILE_NAME) as [rows|]; [|reflexivity].
    destruct (build_department_summaries rows) as [summaries|];
      [|reflexivity].
    rewrite IH by exact Hn.
    unfold write_department_summaries, write_file.
    destruct (String.eqb_spec n OUTPUT_FILE_NAME); [contradiction|reflexivity].
Qed.

Lemma main_writes_output_file_only_witness :
  Main.files
    (Main.main (fun s => s) ["3"; "1"; "q"]%string
       (Examples.one_file Examples.input) [])
    INPUT_FILE_NAME
  = Examples.one_file Examples.input INPUT_FILE_NAME.
Proof.
  apply main_writes_output_file_only. vm_compute. discriminate.
Defined.

(** X11: a session on an input file that loads and whose summaries can be
    built. Up to the first line q every line is answered: 1 by the
    hierarchy, 2 by the summaries, anything else by nothing, each answer
    after a menu; then the process exits with code 0. The output file holds
    the written summaries if 3 was typed, and is untouched otherwise. What
    follows q is not read. *)
Theorem main_session :
  forall iter_set rows summaries pre post fs out,
    read_input_file fs INPUT_FILE_NAME = Ok rows ->
    build_department_summaries rows = Ok summaries ->
    ~ In "q"%string pre ->
    let r := Main.main iter_set (pre ++ "q"%string :: post) fs out in
    Main.ended r = Main.Exit 0
    /\ Main.printed r
       = out
           ++ flat_map
                (fun o => Main.MENU
                          :: Main.response iter_set rows summaries o) pre
           ++ [Main.MENU]
    /\ Main.files r OUTPUT_FILE_NAME
       = if mem "3"%string pre then Some (written_summaries summaries)
         else fs OUTPUT_FILE_NAME.
Proof.
  intros iter_set rows summaries pre post.
  induction pre as [|option pre IH]; intros fs out Hread Hbuild Hq r;
    subst r.
  - cbn. repeat split.
  - assert (Hq' : ~ In "q"%string pre) by (intros H; apply Hq; right; exact H).
    assert (Ho : String.eqb option "q" = false).
    { apply String.eqb_neq. intros ->. apply Hq. left. reflexivity. }
    cbn [app Main.main]. rewrite Ho, Hread, Hbuild.
    cbn [flat_map mem existsb]. unfold Main.response.
    rewrite (String.eqb_sym "3"%string option).
    destruct (String.eqb option "1") eqn:E1.
    { apply String.eqb_eq in E1. subst option. cbn [String.eqb Ascii.eqb Bool.eqb orb].
      destruct (IH fs ((out ++ [Main.MENU])
                         ++ print_company_hierarchy iter_set rows)
                  Hread Hbuild Hq') as (H1 & H2 & H3).
      repeat split; [exact H1| |exact H3].
      rewrite H2. rewrite <- !app_assoc. reflexivity. }
    destruct (String.eqb option "2") eqn:E2.
    { apply String.eqb_eq in E2. subst option. cbn [String.eqb Ascii.eqb Bool.eqb orb].
      destruct (IH fs ((out ++ [Main.MENU])
                         ++ print_department_summaries summaries)
                  Hread Hbuild Hq') as (H1 & H2 & H3).
      repeat split; [exact H1| |exact H3].
      rewrite H2. rewrite <- !app_assoc. reflexivity. }
    destruct (String.eqb option "3") eqn:E3.
    { destruct (IH (write_department_summaries summaries OUTPUT_FILE_NAME fs)
                  (out ++ [Main.MENU])) as (H1 & H2 & H3);
        [|exact Hbuild|exact Hq'|].
      - unfold write_department_summaries.
        rewrite read_input_file_write_file by apply INPUT_OUTPUT_differ.
        exact Hread.
      - repeat split; [exact H1| |].
        + rewrite H2. rewrite <- !app_assoc. reflexivity.
        + rewrite H3. cbn [orb].
          destruct (mem "3"%string pre); [reflexivity|].
          unfold write_department_summaries, write_file.
          rewrite String.eqb_refl. reflexivity. }
    destruct (IH fs (out ++ [Main.MENU]) Hread Hbuild Hq') as (H1 & H2 & H3).
    repeat split; [exact H1| |exact H3].
    rewrite H2. rewrite <- !app_assoc. reflexivity.
Qed.

Lemma main_session_witness :
  let r := Main.main (fun s => s) (["2"; "3"]%string ++ "q"%string :: ["1"%string])
             (Examples.one_file Examples.input) [] in
  Main.ended r = Main.Exit 0
  /\ Main.printed r
     = []
         ++ flat_map
              (fun o => Main.MENU
                        :: Main.response (fun s => s) Examples.input_rows
                             [mkDepartmentSummary "Eng" 2 100 200
                                (Finite false 5277655813324800 (-45))] o)
              ["2"; "3"]%string
         ++ [Main.MENU]
  /\ Main.files r OUTPUT_FILE_NAME
     = if mem "3"%string ["2"; "3"]%string
       then Some (written_summaries
                    [mkDepartmentSummary "Eng" 2 100 200
                       (Finite false 5277655813324800 (-45))])
       else Examples.one_file Examples.input OUTPUT_FILE_NAME.
Proof.
  apply (main_session (fun s => s) Examples.input_rows
           [mkDepartmentSummary "Eng" 2 100 200
              (Finite false 5277655813324800 (-45))]
           ["2"; "3"]%string ["1"%string]
           (Examples.one_file Examples.input) []).
  - vm_compute. reflexivity.
  - vm_compute. reflexivity.
  - simpl. intros [H|[H|[]]]; discriminate.
Defined.



(** X13: main exits only with code 0 and only after it has read a line q;
    without such a line the process ends on an uncaught exception or on
    the end of the input. *)
Theorem main_exits_on_q_only :
  forall iter_set stdin fs out code,
    Main.ended (Main.main iter_set stdin fs out) = Main.Exit code ->
    code = 0 /\ In "q"%string stdin.
Proof.
  intros iter_set stdin. induction stdin as [|option stdin IH];
    intros fs out code H; cbn [Main.main] in H.
  - discriminate.
  - destruct (String.eqb_spec option "q") as [->|Nq].
    { injection H as <-. split; [reflexivity|left; reflexivity]. }
    assert (K : forall fs' out',
               Main.ended (Main.main iter_set stdin fs' out') = Main.Exit code ->
               code = 0 /\ In "q"%string (option :: stdin)).
    { intros fs' out' H'. destruct (IH _ _ _ H') as [Hc Hq].
      split; [exact Hc|right; exact Hq]. }
    destruct (String.eqb option "1").
    { destruct (read_input_file fs INPUT_FILE_NAME); [eapply K; exact H|].
      discriminate. }
    destruct (String.eqb option "2").
    { destruct (read_input_file fs INPUT_FILE_NAME) as [rows|];
        [|discriminate].
      destruct (build_department_summaries rows); [eapply K; exact H|].
      discriminate. }
    destruct (String.eqb option "3"); [|eapply K; exact H].
    destruct (read_input_file fs INPUT_FILE_NAME) as [rows|]; [|discriminate].
    destruct (build_department_summaries rows); [eapply K; exact H|].
    discriminate.
Qed.

Lemma main_exits_on_q_only_witness :
  0 = 0 /\ In "q"%string ["1"; "q"]%string.
Proof.
  apply (main_exits_on_q_only (fun s => s) ["1"; "q"]%string
           (Examples.one_file Examples.input) [] 0).
  vm_compute. reflexivity.
Defined.



(** ** The reader reads back what the writer writes *)

(** *** The reader, one character at a time *)

Lemma records_from_scan :
  forall d n l,
    (List.length l <= n)%nat ->
    forall cur p records,
      rev records ++ records_from d p (lines_from cur l)
      = scan_finish d
          (fold_left (scan_step d) l
             (mkScanner
                (fold_left (fun q c => process_char d q (Some c)) (rev cur) p)
                (if is_nil cur then AtLineStart else MidLine) records)).
Proof.
  intros d. induction n as [|n IH]; intros l Hlen cur p records.
  - destruct l; [|simpl in Hlen; lia].
    destruct cur as [|c cur]; [reflexivity|].
    cbn [lines_from is_nil fold_left records_from].
    unfold scan_finish, end_line, process_line. cbn [spending sparser srecords].
    destruct (is_start_record _); cbn [rev]; [rewrite <- app_assoc|];
      reflexivity.
  - assert (IH0 : forall l0, (List.length l0 <= n)%nat ->
               forall p0 records0,
                 rev records0 ++ records_from d p0 (lines_from [] l0)
                 = scan_finish d
                     (fold_left (scan_step d) l0
                        (mkScanner p0 AtLineStart records0)))
      by (intros l0 H0 p0 records0; exact (IH l0 H0 [] p0 records0)).
    destruct l as [|c l]; [apply (IH []); simpl; lia|].
    simpl in Hlen. cbn [lines_from fold_left].
    set (q := fold_left (fun q c => process_char d q (Some c)) (rev cur) p).
    assert (Hline : forall a,
               fold_left (fun q c => process_char d q (Some c))
                         (rev (a :: cur)) p
               = process_char d q (Some a)).
    { intros a. cbn [rev]. rewrite fold_left_app. reflexivity. }
    assert (Hline2 : forall a b,
               fold_left (fun q c => process_char d q (Some c))
                         (rev (b :: a :: cur)) p
               = process_char d (process_char d q (Some a)) (Some b)).
    { intros a b. cbn [rev]. rewrite !fold_left_app. reflexivity. }
    assert (Hstep : scan_step d
                      (mkScanner q (if is_nil cur then AtLineStart else MidLine)
                         records) c
                    = scan_char d q records c)
      by (unfold scan_step; cbn [spending sparser srecords];
          destruct (is_nil cur); reflexivity).
    rewrite Hstep. unfold scan_char.
    destruct (Ascii.eqb c LF) eqn:Elf.
    + (* the line ends on a line feed *)
      cbn [records_from]. unfold process_line, end_line.
      rewrite (Hline c).
      destruct (is_start_record _).
      * rewrite <- (IH0 l ltac:(lia) parse_reset). cbn [rev].
        rewrite <- app_assoc. reflexivity.
      * rewrite <- (IH0 l ltac:(lia)). reflexivity.
    + destruct (Ascii.eqb c CR) eqn:Ecr.
      * (* a carriage return *)
        destruct l as [|c' l'].
        -- cbn [records_from fold_left]. unfold process_line, scan_finish, end_line.
           cbn [spending sparser srecords]. rewrite (Hline c).
           destruct (is_start_record _); cbn [rev]; [rewrite <- app_assoc|];
             reflexivity.
        -- cbn [fold_left]. unfold scan_step at 2.
           cbn [spending sparser srecords].
           destruct (Ascii.eqb c' LF) eqn:Elf'.
           ++ cbn [records_from]. unfold process_line, end_line.
              rewrite (Hline2 c c').
              simpl in Hlen.
              destruct (is_start_record _).
              ** rewrite <- (IH0 l' ltac:(lia) parse_reset). cbn [rev].
                 rewrite <- app_assoc. reflexivity.
              ** rewrite <- (IH0 l' ltac:(lia)). reflexivity.
           ++ cbn [records_from]. unfold process_line, end_line.
              rewrite (Hline c).
              destruct (is_start_record _).
              ** etransitivity;
                   [|exact (IH0 (c' :: l') ltac:(lia) parse_reset
                              (rev (fields (process_char d
                                              (process_char d q (Some c))
                                              None))
                               :: records))].
                 cbn [rev]. rewrite <- app_assoc. reflexivity.
              ** exact (IH0 (c' :: l') ltac:(lia) _ records).
      * (* any other character *)
        rewrite (IH l ltac:(lia) (c :: cur)). cbn [is_nil].
        rewrite (Hline c). reflexivity.
Qed.

Lemma reader_scan :
  forall d s, reader d s = scan d (list_ascii_of_string s).
Proof.
  intros d s. unfold reader, scan.
  exact (records_from_scan d _ _ (Nat.le_refl _) [] parse_reset []).
Qed.

(** *** The scanner on written rows *)

Lemma parser_eta : forall p, mkParser (st p) (field p) (fields p) = p.
Proof. intros []. reflexivity. Qed.

Lemma list_ascii_of_string_app :
  forall s1 s2,
    list_ascii_of_string (s1 ++ s2)
    = list_ascii_of_string s1 ++ list_ascii_of_string s2.
Proof.
  induction s1 as [|c s1 IH]; intros s2; simpl; [|rewrite IH]; reflexivity.
Qed.

Section WrittenRows.

Variable d : ascii.
Hypothesis d_not_quote : Ascii.eqb d QUOTECHAR = false.
Hypothesis d_not_LF : Ascii.eqb d LF = false.
Hypothesis d_not_CR : Ascii.eqb d CR = false.

Local Abbreviation step := (scan_step d).
Local Abbreviation is_plain := (plain d).

Lemma end_line_in_quoted :
  forall p records,
    st p = IN_QUOTED_FIELD -> end_line d p records = (p, records).
Proof.
  intros p records H. unfold end_line, process_char. rewrite H, H.
  reflexivity.
Qed.

Lemma step_in_quoted_other :
  forall p pend records c,
    st p = IN_QUOTED_FIELD -> Ascii.eqb c QUOTECHAR = false ->
    exists pend',
      step (mkScanner p pend records) c
      = mkScanner (add_char c p) pend' records.
Proof.
  intros p pend records c H Hc.
  assert (Hp : process_char d p (Some c) = add_char c p)
    by (unfold process_char; rewrite H, Hc; reflexivity).
  assert (He : end_line d (add_char c p) records = (add_char c p, records))
    by (apply end_line_in_quoted; exact H).
  assert (Hs : exists pend',
             scan_char d p records c = mkScanner (add_char c p) pend' records).
  { unfold scan_char. rewrite Hp, He.
    destruct (Ascii.eqb c LF); [|destruct (Ascii.eqb c CR)]; eexists;
      reflexivity. }
  unfold scan_step. cbn [spending sparser srecords].
  destruct pend; try exact Hs.
  rewrite Hp, He, (end_line_in_quoted p records H).
  destruct (Ascii.eqb c LF); [eexists; reflexivity|exact Hs].
Qed.

Lemma step_in_quoted_quote :
  forall p pend records,
    st p = IN_QUOTED_FIELD ->
    step (mkScanner p pend records) QUOTECHAR
    = mkScanner (goto QUOTE_IN_QUOTED_FIELD p) MidLine records.
Proof.
  intros p pend records H.
  assert (Hp : process_char d p (Some QUOTECHAR)
               = goto QUOTE_IN_QUOTED_FIELD p)
    by (unfold process_char; rewrite H; reflexivity).
  unfold scan_step, scan_char. cbn [spending sparser srecords].
  destruct pend; rewrite ?(end_line_in_quoted p records H), Hp; reflexivity.
Qed.

Lemma step_quote_in_quoted_quote :
  forall p records,
    st p = QUOTE_IN_QUOTED_FIELD ->
    step (mkScanner p MidLine records) QUOTECHAR
    = mkScanner (goto IN_QUOTED_FIELD (add_char QUOTECHAR p)) MidLine records.
Proof.
  intros p records H. unfold scan_step, scan_char, process_char.
  cbn [spending sparser srecords]. rewrite H. reflexivity.
Qed.

(** The body of a quoted field is taken as it was before the quotes were
    doubled, whatever line ends it holds. *)
Lemma scan_escaped :
  forall cs p pend records,
    st p = IN_QUOTED_FIELD ->
    exists pend',
      fold_left step (escaped cs) (mkScanner p pend records)
      = mkScanner (mkParser IN_QUOTED_FIELD (rev cs ++ field p) (fields p))
                  pend' records.
Proof.
  induction cs as [|c cs IH]; intros p pend records H.
  - exists pend. cbn. rewrite <- H. rewrite parser_eta. reflexivity.
  - unfold escaped. cbn [flat_map]. fold (escaped cs).
    rewrite fold_left_app.
    destruct (Ascii.eqb c QUOTECHAR) eqn:Ec.
    + apply Ascii.eqb_eq in Ec. subst c. cbn [fold_left].
      rewrite step_in_quoted_quote by exact H.
      rewrite step_quote_in_quoted_quote by reflexivity.
      destruct (IH (goto IN_QUOTED_FIELD
                      (add_char QUOTECHAR (goto QUOTE_IN_QUOTED_FIELD p)))
                  MidLine records eq_refl) as [pend' ->].
      exists pend'. cbn [goto add_char field fields rev].
      rewrite <- app_assoc. reflexivity.
    + cbn [fold_left].
      destruct (step_in_quoted_other p pend records c H Ec) as [pend1 ->].
      destruct (IH (add_char c p) pend1 records H) as [pend' ->].
      exists pend'. cbn [add_char field fields rev].
      rewrite <- app_assoc. reflexivity.
Qed.

Lemma plain_spec :
  forall c, is_plain c = true ->
            Ascii.eqb c d = false /\ Ascii.eqb c QUOTECHAR = false
            /\ Ascii.eqb c LF = false /\ Ascii.eqb c CR = false.
Proof.
  intros c H. unfold plain, needs_quotes in H. cbn in H.
  apply negb_true_iff in H.
  fold CR LF in H.
  destruct (Ascii.eqb c d), (Ascii.eqb c QUOTECHAR), (Ascii.eqb c CR),
    (Ascii.eqb c LF); try discriminate. auto.
Qed.

Lemma step_not_after_cr :
  forall p pend records c,
    not_after_cr pend ->
    step (mkScanner p pend records) c = scan_char d p records c.
Proof.
  intros p pend records c H. unfold scan_step.
  cbn [spending sparser srecords]. destruct pend; try reflexivity.
  exfalso. apply H. reflexivity.
Qed.

Lemma process_plain :
  forall p c,
    is_plain c = true -> st p <> IN_QUOTED_FIELD -> st p <> EAT_CRNL ->
    st p <> QUOTE_IN_QUOTED_FIELD ->
    process_char d p (Some c) = mkParser IN_FIELD (c :: field p) (fields p).
Proof.
  intros p c Hc H1 H2 H3.
  destruct (plain_spec c Hc) as (Ed & Eq & Elf & Ecr).
  unfold process_char, start_field, is_newline.
  destruct (st p) eqn:Hst; try contradiction;
    cbn [goto st]; rewrite ?Elf, ?Ecr, ?Eq, ?Ed; cbn [orb];
    unfold add_char, goto; cbn [st field fields]; rewrite ?Hst; reflexivity.
Qed.

(** A field written without quotes is taken as it is. *)
Lemma scan_plain :
  forall cs p pend records,
    forallb is_plain cs = true -> cs <> [] -> not_after_cr pend ->
    st p = START_RECORD \/ st p = START_FIELD \/ st p = IN_FIELD ->
    fold_left step cs (mkScanner p pend records)
    = mkScanner (mkParser IN_FIELD (rev cs ++ field p) (fields p))
                MidLine records.
Proof.
  induction cs as [|c cs IH]; intros p pend records Hcs Hne Hpend Hst;
    [contradiction|].
  cbn [forallb] in Hcs. apply andb_true_iff in Hcs. destruct Hcs as [Hc Hcs].
  cbn [fold_left]. rewrite step_not_after_cr by exact Hpend.
  destruct (plain_spec c Hc) as (Ed & Eq & Elf & Ecr).
  unfold scan_char. rewrite Elf, Ecr.
  rewrite process_plain;
    [|exact Hc|destruct Hst as [H|[H|H]]; rewrite H; discriminate..].
  destruct cs as [|c' cs].
  - reflexivity.
  - rewrite IH; [|exact Hcs|discriminate|discriminate|right; right; reflexivity].
    cbn [field fields rev]. rewrite <- !app_assoc. reflexivity.
Qed.


Lemma join_append_chars :
  forall s,
    list_ascii_of_string (join_append d s)
    = let cs := list_ascii_of_string s in
      if existsb (needs_quotes d) cs
      then QUOTECHAR :: escaped cs ++ [QUOTECHAR]
      else escaped cs.
Proof.
  intros s. unfold join_append. apply list_ascii_of_string_of_list_ascii.
Qed.

Lemma not_needs_quotes_plain :
  forall cs, existsb (needs_quotes d) cs = false -> forallb is_plain cs = true.
Proof.
  induction cs as [|c cs IH]; intros H; [reflexivity|].
  cbn [existsb] in H. apply orb_false_iff in H. destruct H as [Hc Hcs].
  cbn [forallb]. unfold plain at 1. rewrite Hc, IH by exact Hcs.
  reflexivity.
Qed.

Lemma escaped_plain :
  forall cs, forallb is_plain cs = true -> escaped cs = cs.
Proof.
  induction cs as [|c cs IH]; intros H; [reflexivity|].
  cbn [forallb] in H. apply andb_true_iff in H. destruct H as [Hc Hcs].
  destruct (plain_spec c Hc) as (_ & Eq & _).
  unfold escaped. cbn [flat_map]. fold (escaped cs). rewrite Eq, IH by exact Hcs.
  reflexivity.
Qed.

Lemma list_ascii_of_string_nil :
  forall s, list_ascii_of_string s = [] -> s = EmptyString.
Proof. intros [|c s] H; [reflexivity|discriminate]. Qed.

(** A written field is read as the field it was written from. *)
Lemma scan_field :
  forall s p pend records,
    st p = START_RECORD \/ st p = START_FIELD -> field p = [] ->
    not_after_cr pend ->
    exists p' pend',
      fold_left step (list_ascii_of_string (join_append d s))
                (mkScanner p pend records)
      = mkScanner p' pend' records
      /\ not_after_cr pend'
      /\ holds_field p' s (fields p)
      /\ (st p' = START_RECORD -> st p = START_RECORD).
Proof.
  intros s p pend records Hst Hfield Hpend.
  rewrite join_append_chars. cbv zeta.
  set (cs := list_ascii_of_string s).
  destruct (existsb (needs_quotes d) cs) eqn:Hq.
  - (* between quotes *)
    cbn [fold_left]. rewrite fold_left_app. cbn [fold_left].
    rewrite step_not_after_cr by exact Hpend.
    assert (Hopen : scan_char d p records QUOTECHAR
                    = mkScanner (mkParser IN_QUOTED_FIELD [] (fields p))
                                MidLine records).
    { unfold scan_char, process_char, start_field.
      destruct Hst as [H|H]; rewrite H; cbn; unfold goto; cbn [field fields st];
        rewrite ?Hfield; reflexivity. }
    rewrite Hopen.
    destruct (scan_escaped cs (mkParser IN_QUOTED_FIELD [] (fields p))
                MidLine records eq_refl) as [pend1 ->].
    rewrite step_in_quoted_quote by reflexivity.
    eexists. exists MidLine. split; [reflexivity|].
    split; [discriminate|]. split; [|discriminate].
    cbn [goto field fields st]. unfold holds_field. cbn [field fields st].
    rewrite app_nil_r. fold cs. auto.
  - (* without quotes *)
    pose proof (not_needs_quotes_plain cs Hq) as Hplain.
    rewrite (escaped_plain cs Hplain).
    destruct cs as [|c cs'] eqn:Ecs.
    + exists p, pend. split; [reflexivity|]. split; [exact Hpend|].
      split; [|auto]. unfold holds_field. fold cs. rewrite Ecs, Hfield.
      apply list_ascii_of_string_nil in Ecs. repeat split.
      right. right. split; [tauto|exact Ecs].
    + rewrite scan_plain; [|exact Hplain|discriminate|exact Hpend|tauto].
      eexists. exists MidLine. split; [reflexivity|].
      split; [discriminate|]. split; [|discriminate].
      unfold holds_field. cbn [field fields st]. fold cs.
      rewrite Ecs, Hfield, app_nil_r. auto.
Qed.

Lemma saved_text :
  forall p s saved,
    holds_field p s saved -> fields (save_field p) = s :: saved.
Proof.
  intros p s saved (Hf & Hc & _). unfold save_field. cbn [fields].
  rewrite Hf, Hc, rev_involutive, string_of_list_ascii_of_string.
  reflexivity.
Qed.

(** The delimiter after a field saves the field. *)
Lemma step_delimiter :
  forall p s saved pend records,
    holds_field p s saved -> not_after_cr pend ->
    step (mkScanner p pend records) d
    = mkScanner (mkParser START_FIELD [] (s :: saved)) MidLine records.
Proof.
  intros p s saved pend records H Hpend.
  pose proof (saved_text p s saved H) as Hsaved.
  destruct H as (Hf & Hc & Hst).
  rewrite step_not_after_cr by exact Hpend.
  unfold scan_char. rewrite d_not_LF, d_not_CR. f_equal.
  unfold process_char, start_field, is_newline.
  assert (Hsaved' : string_of_list_ascii (rev (field p)) :: fields p
                    = s :: saved) by exact Hsaved.
  destruct Hst as [H|[H|[[H|H] _]]]; rewrite H; cbn [goto st];
    rewrite ?d_not_LF, ?d_not_CR, ?d_not_quote, ?Ascii.eqb_refl; cbn [orb];
    unfold goto, save_field; cbn [st field fields];
    rewrite ?H, Hsaved'; reflexivity.
Qed.

(** The end of the line after the last field completes the record. *)
Lemma step_row_end :
  forall p s saved pend records,
    holds_field p s saved -> st p <> START_RECORD -> not_after_cr pend ->
    fold_left step [CR; LF] (mkScanner p pend records)
    = mkScanner parse_reset AtLineStart (rev (s :: saved) :: records).
Proof.
  intros p s saved pend records H Hnot Hpend.
  pose proof (saved_text p s saved H) as Hsaved.
  destruct H as (Hf & Hc & Hst).
  cbn [fold_left]. rewrite step_not_after_cr by exact Hpend.
  assert (Hcr : process_char d p (Some CR) = goto EAT_CRNL (save_field p)).
  { assert (Hcd : Ascii.eqb CR d = false)
      by (rewrite Ascii.eqb_sym; exact d_not_CR).
    unfold process_char, start_field, end_of_field.
    destruct Hst as [H|[H|[[H|H] _]]]; try contradiction; rewrite H;
      change (is_newline CR) with true;
      change (Ascii.eqb CR QUOTECHAR) with false;
      rewrite ?Hcd; reflexivity. }
  unfold scan_char. rewrite Hcr. cbn.
  unfold scan_step, end_line, process_char. cbn.
  unfold save_field in Hsaved. cbn [fields] in Hsaved.
  injection Hsaved as E1 E2. rewrite E1, E2. reflexivity.
Qed.

(** The fields of a row after its first field. *)
Lemma scan_fields :
  forall cells s p pend records,
    st p = START_FIELD -> field p = [] -> not_after_cr pend ->
    fold_left step
      (list_ascii_of_string (join d (map (join_append d) (s :: cells)))
         ++ [CR; LF])
      (mkScanner p pend records)
    = mkScanner parse_reset AtLineStart
        ((rev (fields p) ++ s :: cells) :: records).
Proof.
  induction cells as [|s' cells IH]; intros s p pend records Hst Hfield Hpend.
  - cbn [map join]. rewrite fold_left_app.
    destruct (scan_field s p pend records (or_intror Hst) Hfield Hpend)
      as (p' & pend' & -> & Hpend' & Hholds & Hstart).
    rewrite (step_row_end p' s (fields p)); try assumption.
    + reflexivity.
    + intros H. apply Hstart in H. congruence.
  - cbn [map]. cbn [map] in IH.
    change (join d (join_append d s :: join_append d s'
                      :: map (join_append d) cells))
      with (join_append d s
              ++ String d (join d (join_append d s'
                                     :: map (join_append d) cells)))%string.
    rewrite list_ascii_of_string_app. cbn [list_ascii_of_string].
    rewrite <- app_assoc, fold_left_app.
    destruct (scan_field s p pend records (or_intror Hst) Hfield Hpend)
      as (p' & pend' & -> & Hpend' & Hholds & _).
    cbn [app fold_left].
    rewrite (step_delimiter p' s (fields p)) by assumption.
    rewrite IH; [|reflexivity|reflexivity|discriminate].
    cbn [fields rev]. rewrite <- app_assoc. reflexivity.
Qed.

Lemma join_append_empty :
  forall s, join_append d s = EmptyString -> s = EmptyString.
Proof.
  intros s H. apply (f_equal list_ascii_of_string) in H.
  rewrite join_append_chars in H. cbv zeta in H.
  destruct (existsb (needs_quotes d) (list_ascii_of_string s)) eqn:Hq;
    [discriminate|].
  rewrite escaped_plain in H by (apply not_needs_quotes_plain; exact Hq).
  apply list_ascii_of_string_nil. exact H.
Qed.

Lemma string_app_empty :
  forall s1 s2, (s1 ++ s2)%string = EmptyString -> s1 = EmptyString.
Proof. intros [|c s1] s2 H; [reflexivity|discriminate]. Qed.

(** A written row is read as the row it was written from. *)
Lemma scan_row :
  forall row records,
    fold_left step (list_ascii_of_string (writerow d row))
              (mkScanner parse_reset AtLineStart records)
    = mkScanner parse_reset AtLineStart (row :: records).
Proof.
  intros row records. unfold writerow.
  rewrite list_ascii_of_string_app.
  change (list_ascii_of_string LINETERMINATOR) with [CR; LF].
  destruct row as [|s cells].
  - reflexivity.
  - cbn [is_nil negb andb].
    destruct (String.eqb_spec (join d (map (join_append d) (s :: cells)))
                EmptyString) as [He|Hne].
    + (* one empty field, written as two quotes *)
      assert (row_is : s = EmptyString /\ cells = []).
      { destruct cells as [|s' cells].
        - cbn [map join] in He. apply join_append_empty in He. auto.
        - cbn [map] in He.
          change (join d (join_append d s :: join_append d s'
                            :: map (join_append d) cells))
            with (join_append d s
                    ++ String d (join d (join_append d s'
                                           :: map (join_append d) cells)))%string
            in He.
          apply (f_equal list_ascii_of_string) in He.
          rewrite list_ascii_of_string_app in He.
          apply app_eq_nil in He. destruct He as [_ He]. discriminate. }
      destruct row_is as [-> ->].
      change (list_ascii_of_string (String QUOTECHAR (String QUOTECHAR "")))
        with [QUOTECHAR; QUOTECHAR].
      rewrite fold_left_app.
      change (fold_left step [QUOTECHAR; QUOTECHAR]
                (mkScanner parse_reset AtLineStart records))
        with (mkScanner (mkParser QUOTE_IN_QUOTED_FIELD [] []) MidLine records).
      apply (step_row_end _ EmptyString []); try discriminate.
      unfold holds_field. cbn. auto.
    + (* the first field, then the others *)
      destruct cells as [|s' cells].
      * cbn [map join] in *. rewrite fold_left_app.
        destruct (scan_field s parse_reset AtLineStart records
                    (or_introl eq_refl) eq_refl)
          as (p' & pend' & -> & Hpend' & Hholds & Hstart);
          [discriminate|].
        rewrite (step_row_end p' s []); try assumption; [reflexivity|].
        intros H. destruct Hholds as (_ & _ & [E|[E|[_ E]]]);
          try congruence.
        subst s. apply Hne. reflexivity.
      * cbn [map].
        change (join d (join_append d s :: join_append d s'
                          :: map (join_append d) cells))
          with (join_append d s
                  ++ String d (join d (join_append d s'
                                         :: map (join_append d) cells)))%string.
        rewrite list_ascii_of_string_app. cbn [list_ascii_of_string].
        rewrite <- app_assoc, fold_left_app.
        destruct (scan_field s parse_reset AtLineStart records
                    (or_introl eq_refl) eq_refl)
          as (p' & pend' & -> & Hpend' & Hholds & _); [discriminate|].
        cbn [app fold_left].
        rewrite (step_delimiter p' s []) by assumption.
        exact (scan_fields cells s' (mkParser START_FIELD [] [s]) MidLine
                 records eq_refl eq_refl ltac:(discriminate)).
Qed.

Lemma scan_rows :
  forall rows records,
    fold_left step (list_ascii_of_string (delimited_table d rows))
              (mkScanner parse_reset AtLineStart records)
    = mkScanner parse_reset AtLineStart (rev rows ++ records).
Proof.
  unfold delimited_table.
  induction rows as [|row rows IH]; intros records; [reflexivity|].
  cbn [map]. rewrite concat_cons, list_ascii_of_string_app, fold_left_app.
  rewrite scan_row, IH. cbn [rev]. rewrite <- app_assoc. reflexivity.
Qed.

(** Reading a written table gives the table back, field by field, whatever
    the fields hold. *)
Lemma reader_delimited_table :
  forall rows, reader d (delimited_table d rows) = rows.
Proof.
  intros rows. rewrite reader_scan. unfold scan. rewrite scan_rows.
  unfold scan_finish. cbn. rewrite !app_nil_r. apply rev_involutive.
Qed.

End WrittenRows.



(** The example input is such a table. *)
Example example_input_is_a_table :
  Examples.input
  = delimited_table DELIMITER
      [[FULL_NAME_FIELD; DEPARTMENT_FIELD; TEAM_FIELD; POSITION_FIELD;
        RATING_FIELD; SALARY_FIELD];
       ["Ann"; "Eng"; "Core"; "dev"; "4.5"; "100"]%string;
       [];
       ["Bob"; "Eng"; "Infra"; "ops"; "3"; "200"]%string].
Proof. vm_compute. reflexivity. Qed.
